(** * King County Landmark scraper: orchestration loop, date enumeration,
      export naming and request handling.

    Shallow embedding of [src/stagehand-automation-5.ts] (class
    [LandmarkScraper]) and [src/lib/s3-upload.ts] ([S3Uploader] and the
    HTTP [handler]).  The browser SDK, the storage SDK and the clock are
    external collaborators: every call made on them is answered by a
    [World] oracle, and the calls are recorded in a trace. *)

From Stdlib Require Import ZArith List String Ascii Bool Lia.
From Stdlib Require Import Decimal DecimalString DecimalPos DecimalZ.
From Equations Require Import Equations.
Import ListNotations.

Open Scope string_scope.
Open Scope list_scope.
Open Scope Z_scope.

(** ** JavaScript built-ins used by the sources *)

Module Js.

(** Truthiness of an optional string property: [undefined] and the empty
    string are falsy, every other string is truthy. *)
Definition truthy (o : option string) : bool :=
  match o with
  | Some s => negb (String.eqb s "")
  | None => false
  end.

(** [Number.prototype.toString] on an integral number. *)
Definition toString (n : Z) : string :=
  NilZero.string_of_int (Z.to_int n).

Fixpoint replicate (n : nat) (c : ascii) : string :=
  match n with
  | O => EmptyString
  | S k => String c (replicate k c)
  end.

(** [s.padStart(targetLength, c)] for a one-character pad string. *)
Definition padStart (s : string) (targetLength : nat) (c : ascii) : string :=
  (replicate (targetLength - String.length s)%nat c ++ s)%string.

(** *** Dates

    A [Date] built from a date-only string sits at midnight and
    [setDate] keeps the time within the day, so a date is modelled by
    its local calendar fields; [getMonth] is zero-based as in
    JavaScript.  The time value is counted in whole days and follows
    ECMA-262 (DayFromYear, MakeDay). *)

Record Date : Type := mkDate {
  getFullYear : Z;
  getMonth : Z;
  getDate : Z
}.

Definition InLeapYear (y : Z) : bool :=
  (y mod 4 =? 0) && (negb (y mod 100 =? 0) || (y mod 400 =? 0)).

Definition DayFromYear (y : Z) : Z :=
  365 * (y - 1970) + (y - 1969) / 4 - (y - 1901) / 100 + (y - 1601) / 400.

Definition leapDay (y : Z) : Z := if InLeapYear y then 1 else 0.

(** Length of month [mn] (0..11) of year [y]. *)
Definition monthLength (y mn : Z) : Z :=
  match mn with
  | 1 => 28 + leapDay y
  | 3 | 5 | 8 | 10 => 30
  | _ => 31
  end.

(** Days of year [y] that precede the first of month [mn] (0..11). *)
Definition monthStart (y mn : Z) : Z :=
  match mn with
  | 0 => 0
  | 1 => 31
  | 2 => 59 + leapDay y
  | 3 => 90 + leapDay y
  | 4 => 120 + leapDay y
  | 5 => 151 + leapDay y
  | 6 => 181 + leapDay y
  | 7 => 212 + leapDay y
  | 8 => 243 + leapDay y
  | 9 => 273 + leapDay y
  | 10 => 304 + leapDay y
  | _ => 334 + leapDay y
  end.

(** ECMA-262 MakeDay: months outside 0..11 carry into the year. *)
Definition MakeDay (y m dt : Z) : Z :=
  let ym := y + m / 12 in
  let mn := m mod 12 in
  DayFromYear ym + monthStart ym mn + dt - 1.

Definition daysInMonth (y m : Z) : Z :=
  monthLength (y + m / 12) (m mod 12).

(** The time value of a date, in days: what [<=] compares. *)
Definition valueOf (d : Date) : Z :=
  MakeDay (getFullYear d) (getMonth d) (getDate d).

(** Calendar fields of day [dt] of month [m] of year [y], where [dt] may
    lie outside the month: whole months are carried until it fits. *)
Fixpoint normalizeDay (fuel : nat) (y m dt : Z) : Date :=
  match fuel with
  | O => mkDate y m dt
  | S f =>
      if dt <? 1 then
        let y' := if m =? 0 then y - 1 else y in
        let m' := if m =? 0 then 11 else m - 1 in
        normalizeDay f y' m' (dt + daysInMonth y' m')
      else if daysInMonth y m <? dt then
        let y' := if m =? 11 then y + 1 else y in
        let m' := if m =? 11 then 0 else m + 1 in
        normalizeDay f y' m' (dt - daysInMonth y m)
      else mkDate y m dt
  end.

(** [d.setDate(dt)]: the date whose time value is
    [MakeDay(year, month, dt)]. *)
Definition setDate (d : Date) (dt : Z) : Date :=
  normalizeDay (S (Z.to_nat (Z.abs dt))) (getFullYear d) (getMonth d) dt.

(** A date as a [Date] object can hold it. *)
Definition validDate (d : Date) : Prop :=
  0 <= getMonth d <= 11 /\
  1 <= getDate d <= monthLength (getFullYear d) (getMonth d).

End Js.

(** The date template of [generateDateRange] (lines 58-61) and of the
    handler (lines 100-101):
    [`${month}/${day}/${year}`] with month and day padded to two
    digits. *)
Definition formatDate (date : Js.Date) : string :=
  let month := Js.padStart (Js.toString (Js.getMonth date + 1)) 2 "0"%char in
  let day := Js.padStart (Js.toString (Js.getDate date)) 2 "0"%char in
  let year := Js.toString (Js.getFullYear date) in
  (month ++ "/" ++ day ++ "/" ++ year)%string.

Lemma DayFromYear_succ (y : Z) :
  Js.DayFromYear (y + 1) = Js.DayFromYear y + 365 + Js.leapDay y.
Proof.
  unfold Js.DayFromYear, Js.leapDay, Js.InLeapYear.
  destruct (y mod 4 =? 0) eqn:E4; destruct (y mod 100 =? 0) eqn:E100;
    destruct (y mod 400 =? 0) eqn:E400; cbn [andb orb negb];
    rewrite ?Z.eqb_eq, ?Z.eqb_neq in *;
    Z.div_mod_to_equations; lia.
Qed.

Lemma MakeDay_next_month (y m dt : Z) :
  Js.MakeDay y (m + 1) dt = Js.MakeDay y m (dt + Js.daysInMonth y m).
Proof.
  unfold Js.MakeDay, Js.daysInMonth.
  pose proof (Z.mod_pos_bound m 12 eq_refl) as Hr.
  destruct (Z.eq_dec (m mod 12) 11) as [E | E].
  - assert (Hq : (m + 1) / 12 = m / 12 + 1) by (Z.div_mod_to_equations; lia).
    assert (Hm : (m + 1) mod 12 = 0) by (Z.div_mod_to_equations; lia).
    rewrite Hq, Hm, E, Z.add_assoc, DayFromYear_succ.
    cbn [Js.monthStart Js.monthLength]. lia.
  - assert (Hq : (m + 1) / 12 = m / 12) by (Z.div_mod_to_equations; lia).
    assert (Hc : m mod 12 = 0 \/ m mod 12 = 1 \/ m mod 12 = 2 \/ m mod 12 = 3 \/
                 m mod 12 = 4 \/ m mod 12 = 5 \/ m mod 12 = 6 \/ m mod 12 = 7 \/
                 m mod 12 = 8 \/ m mod 12 = 9 \/ m mod 12 = 10) by lia.
    rewrite Hq.
    repeat (destruct Hc as [Hc | Hc]);
      match type of Hc with
      | _ = ?k =>
          let k' := eval compute in (k + 1) in
          assert (Hm : (m + 1) mod 12 = k') by (Z.div_mod_to_equations; lia);
          rewrite Hm, Hc
      end;
      cbv [Js.monthStart Js.monthLength]; lia.
Qed.

Lemma MakeDay_year_carry (y dt : Z) : Js.MakeDay y 12 dt = Js.MakeDay (y + 1) 0 dt.
Proof.
  unfold Js.MakeDay.
  change (12 / 12) with 1. change (12 mod 12) with 0.
  change (0 / 12) with 0. change (0 mod 12) with 0.
  rewrite !Z.add_0_r. cbv [Js.monthStart]. reflexivity.
Qed.

Lemma daysInMonth_in_year (y m : Z) :
  0 <= m <= 11 -> Js.daysInMonth y m = Js.monthLength y m.
Proof.
  intros Hm. unfold Js.daysInMonth.
  rewrite (Z.div_small m 12), (Z.mod_small m 12), Z.add_0_r by lia.
  reflexivity.
Qed.

(** Carrying months never changes the day that is denoted. *)
Lemma valueOf_normalizeDay (fuel : nat) :
  forall y m dt, Js.valueOf (Js.normalizeDay fuel y m dt) = Js.MakeDay y m dt.
Proof.
  induction fuel as [| f IH]; intros y m dt; [reflexivity |].
  cbn [Js.normalizeDay].
  destruct (dt <? 1).
  - rewrite IH. destruct (m =? 0) eqn:E.
    + apply Z.eqb_eq in E. subst m.
      rewrite <- MakeDay_next_month.
      change (11 + 1) with 12. rewrite MakeDay_year_carry.
      f_equal; lia.
    + rewrite <- MakeDay_next_month. f_equal; lia.
  - destruct (Js.daysInMonth y m <? dt); [| reflexivity].
    rewrite IH. destruct (m =? 11) eqn:E.
    + apply Z.eqb_eq in E. subst m.
      rewrite <- MakeDay_year_carry. change 12 with (11 + 1).
      rewrite MakeDay_next_month. f_equal; lia.
    + rewrite MakeDay_next_month. f_equal; lia.
Qed.

Lemma valueOf_setDate (d : Js.Date) (dt : Z) :
  Js.valueOf (Js.setDate d dt) = Js.valueOf d + (dt - Js.getDate d).
Proof.
  unfold Js.setDate. rewrite valueOf_normalizeDay.
  unfold Js.valueOf, Js.MakeDay. lia.
Qed.

Lemma monthLength_bounds (y m : Z) : 28 <= Js.monthLength y m <= 31.
Proof.
  unfold Js.monthLength, Js.leapDay.
  destruct (Js.InLeapYear y);
    repeat match goal with |- context [match ?x with _ => _ end] => destruct x end;
    lia.
Qed.

(** [date.setDate(date.getDate() + 1)] on a well-formed date is the next
    calendar day, again well formed. *)
Lemma setDate_next_valid (d : Js.Date) :
  Js.validDate d -> Js.validDate (Js.setDate d (Js.getDate d + 1)).
Proof.
  destruct d as [y m dd]. unfold Js.validDate, Js.setDate.
  cbn [Js.getFullYear Js.getMonth Js.getDate]. intros [Hm Hd].
  pose proof (monthLength_bounds y m) as Hb.
  destruct (Z.to_nat (Z.abs (dd + 1))) as [| f] eqn:Ef; [lia |].
  cbn [Js.normalizeDay].
  destruct (dd + 1 <? 1) eqn:E1; [apply Z.ltb_lt in E1; lia |].
  rewrite (daysInMonth_in_year y m) by lia.
  destruct (Js.monthLength y m <? dd + 1) eqn:E2.
  - apply Z.ltb_lt in E2.
    assert (Hdd : dd + 1 - Js.monthLength y m = 1) by lia. rewrite Hdd.
    destruct (1 <? 1) eqn:E3; [apply Z.ltb_lt in E3; lia |].
    assert (Hfit : forall y' m', 0 <= m' <= 11 ->
              (Js.daysInMonth y' m' <? 1) = false).
    { intros y' m' Hm'. rewrite daysInMonth_in_year by lia.
      pose proof (monthLength_bounds y' m'). apply Z.ltb_ge. lia. }
    destruct (m =? 11) eqn:E11.
    + rewrite Hfit by lia. cbn [Js.getFullYear Js.getMonth Js.getDate].
      pose proof (monthLength_bounds (y + 1) 0). lia.
    + apply Z.eqb_neq in E11. rewrite Hfit by lia.
      cbn [Js.getFullYear Js.getMonth Js.getDate].
      pose proof (monthLength_bounds y (m + 1)). lia.
  - apply Z.ltb_ge in E2. cbn [Js.getFullYear Js.getMonth Js.getDate]. lia.
Qed.

(** ** Date enumeration *)

Definition inspect {A : Type} (a : A) : {b : A | a = b} := exist _ a eq_refl.

(** The [for] loop of [generateDateRange] (line 57): while
    [date <= end], push the formatted date and advance by
    [date.setDate(date.getDate() + 1)]. *)
Equations? dateLoop (date end_ : Js.Date) (dates : list string) : list string
  by wf (Z.to_nat (Js.valueOf end_ + 1 - Js.valueOf date)) lt :=
  dateLoop date end_ dates with inspect (Js.valueOf date <=? Js.valueOf end_) := {
    | exist _ true _ =>
        dateLoop (Js.setDate date (Js.getDate date + 1)) end_
                 (dates ++ [formatDate date]);
    | exist _ false _ => dates }.
Proof.
  rewrite valueOf_setDate. apply Z.leb_le in e. lia.
Qed.

Section DateRange.

(** [new Date(s)] on a string: [None] is an Invalid Date.  How a
    non-ISO string is read is left to the JavaScript engine, so the
    reader is a parameter. *)
Variable Date_parse : string -> option Js.Date.

(** [generateDateRange] (lines 51-65).  A comparison with an Invalid
    Date is false, so the loop body never runs when either bound is
    invalid. *)
Definition generateDateRange (startDate endDate : string) : list string :=
  let dates := [] in
  let start := Date_parse startDate in
  let end_ := Date_parse endDate in
  match start, end_ with
  | Some start, Some end_ => dateLoop start end_ dates
  | _, _ => dates
  end.

End DateRange.

(** *** A concrete reader for slash-separated dates

    Month, day and year as runs of decimal digits separated by [/]:
    month 1..12, day 1..31 (a day past the end of the month carries into
    the next one), two-digit years below 50 in 20xx and below 100 in
    19xx.  This is how V8 reads the [MM/DD/YYYY] strings of
    [ScrapeConfig]. *)

Definition isDigit (c : ascii) : bool :=
  let n := Z.of_N (N_of_ascii c) in (48 <=? n) && (n <=? 57).

Fixpoint digitsValue (acc : Z) (s : string) : option Z :=
  match s with
  | EmptyString => Some acc
  | String c rest =>
      if isDigit c
      then digitsValue (10 * acc + (Z.of_N (N_of_ascii c) - 48)) rest
      else None
  end.

Definition parseDigits (s : string) : option Z :=
  match s with
  | EmptyString => None
  | _ => digitsValue 0 s
  end.

(** [s.split(sep)] for a one-character separator. *)
Fixpoint split (sep : ascii) (s : string) : list string :=
  match s with
  | EmptyString => [EmptyString]
  | String c rest =>
      if Ascii.eqb c sep then EmptyString :: split sep rest
      else match split sep rest with
           | piece :: pieces => String c piece :: pieces
           | [] => [String c EmptyString]
           end
  end.

Definition parseSlashDate (s : string) : option Js.Date :=
  match split "/" s with
  | [mm; dd; yyyy] =>
      match parseDigits mm, parseDigits dd, parseDigits yyyy with
      | Some m, Some d, Some y =>
          if (1 <=? m) && (m <=? 12) && (1 <=? d) && (d <=? 31) then
            let year := if y <=? 49 then y + 2000
                        else if y <=? 99 then y + 1900 else y in
            Some (Js.setDate (Js.mkDate year (m - 1) 1) d)
          else None
      | _, _, _ => None
      end
  | _ => None
  end.

Example generateDateRange_three_days :
  generateDateRange parseSlashDate "01/01/2024" "01/03/2024"
  = ["01/01/2024"; "01/02/2024"; "01/03/2024"].
Proof. vm_compute. reflexivity. Qed.

Example generateDateRange_leap :
  generateDateRange parseSlashDate "02/28/2024" "03/01/2024"
  = ["02/28/2024"; "02/29/2024"; "03/01/2024"].
Proof. vm_compute. reflexivity. Qed.

Example generateDateRange_year_end :
  generateDateRange parseSlashDate "12/31/2023" "01/01/2024"
  = ["12/31/2023"; "01/01/2024"].
Proof. vm_compute. reflexivity. Qed.

(** ** Strings

    A string is a sequence of code units, here those below 256. *)

(** The class [\s] on code units below 256: tab, line feed, vertical
    tab, form feed, carriage return, space and no-break space. *)
Definition isWhiteSpace (c : ascii) : bool :=
  let n := Z.of_N (N_of_ascii c) in
  ((9 <=? n) && (n <=? 13)) || (n =? 32) || (n =? 160).

(** [s.replace(/\s+/g, '-')]: every maximal run of white space becomes
    one hyphen (emitted at the last character of the run). *)
Fixpoint replaceWhiteSpaceRuns (s : string) : string :=
  match s with
  | EmptyString => EmptyString
  | String c rest =>
      if isWhiteSpace c then
        match rest with
        | EmptyString => String "-" EmptyString
        | String c' _ =>
            if isWhiteSpace c' then replaceWhiteSpaceRuns rest
            else String "-" (replaceWhiteSpaceRuns rest)
        end
      else String c (replaceWhiteSpaceRuns rest)
  end.

(** [s.replace(/\//g, '-')]. *)
Fixpoint replaceSlashes (s : string) : string :=
  match s with
  | EmptyString => EmptyString
  | String c rest =>
      String (if Ascii.eqb c "/" then "-"%char else c) (replaceSlashes rest)
  end.

Definition toLowerChar (c : ascii) : ascii :=
  let n := Z.of_N (N_of_ascii c) in
  if ((65 <=? n) && (n <=? 90))
     || ((192 <=? n) && (n <=? 222) && negb (n =? 215))
  then ascii_of_N (N_of_ascii c + 32) else c.

Fixpoint toLowerCase (s : string) : string :=
  match s with
  | EmptyString => EmptyString
  | String c rest => String (toLowerChar c) (toLowerCase rest)
  end.

Definition endsWith (s suffix : string) : bool :=
  let n := String.length s in
  let k := String.length suffix in
  (k <=? n)%nat && String.eqb (substring (n - k) k s) suffix.

(** ** The outside world *)

(** A thrown value: an [Error] with its message, or anything else with
    its [String(...)] rendering. *)
Inductive Exn : Type :=
| ErrorObject (message : string)
| ThrownValue (rendering : string).

(** [error instanceof Error ? error.message : String(error)]. *)
Definition errorMessage (error : Exn) : string :=
  match error with
  | ErrorObject message => message
  | ThrownValue rendering => rendering
  end.

Inductive Locator : Type :=
| ByRole (role name : string)
| BySelector (selector : string).

(** The calls made on the browser session and on the storage client. *)
Inductive Call : Type :=
| StagehandInit
| StagehandClose
| PageGoto (url : string) (timeout : Z)
| PageWaitForTimeout (ms : Z)
| PageGoBack
| IsVisible (target : Locator) (timeout : Z)
| Click (target : Locator)
| Press (target : Locator) (key : string)
| Fill (target : Locator) (value : string)
| WaitForEvent (event : string) (timeout : Z)
| CreateReadStream
| ReadStream
| S3Send (bucket key contentType : string) (body : list Byte.byte).

Inductive Val : Type :=
| VUndefined
| VBool (b : bool)
| VBuffer (bytes : list Byte.byte).

Inductive Reply : Type :=
| Resolved (v : Val)
| Rejected (e : Exn).

(** An instant of the clock: the local calendar date ([new Date()]), the
    UTC day of [toISOString()] and [Date.now()]. *)
Record Instant : Type := mkInstant {
  localDate : Js.Date;
  isoDay : string;
  millis : Z
}.

(** The world answers the [n]-th call and the [n]-th clock reading, and
    holds the environment. *)
Record World : Type := mkWorld {
  respond : nat -> Call -> Reply;
  clock : nat -> Instant;
  S3_BUCKET_NAME : string
}.

Definition toBoolean (v : Val) : bool :=
  match v with
  | VUndefined => false
  | VBool b => b
  | VBuffer _ => true
  end.

Definition bufferOf (v : Val) : list Byte.byte :=
  match v with
  | VBuffer bytes => bytes
  | _ => []
  end.

(** ** Data model *)

Record ScrapeConfig : Type := mkConfig {
  startDate : string;
  endDate : string;
  documentTypes : list string;
  county : string
}.

(** What [scrapeSingleDay] resolves to. *)
Record ScrapeOutcome : Type := mkOutcome {
  outcome_success : bool;
  outcome_s3Path : option string;
  outcome_error : option string
}.

(** An element of [results]. *)
Record ResultEntry : Type := mkEntry {
  date : string;
  documentType : string;
  s3Path : option string;
  error : option string
}.

Record Summary : Type := mkSummary {
  total : nat;
  successful : nat;
  failed : nat
}.

Record ExecutionResult : Type := mkResult {
  success : bool;
  results : list ResultEntry;
  summary : Summary
}.

(** ** Computations: state, exceptions, [try]/[catch] *)

Record State : Type := mkState {
  trace : list Call;          (* calls made so far, oldest first *)
  clockReads : nat;           (* clock readings so far *)
  heap_results : list ResultEntry   (* the [results] array of [execute] *)
}.

Definition initialState : State := mkState [] 0 [].

Inductive Completion (A : Type) : Type :=
| Normal (a : A)
| Throw (e : Exn).
Arguments Normal {A} a.
Arguments Throw {A} e.

Definition M (A : Type) : Type := State -> Completion A * State.

Definition ret {A : Type} (a : A) : M A := fun st => (Normal a, st).

Definition bind {A B : Type} (m : M A) (k : A -> M B) : M B :=
  fun st =>
    match m st with
    | (Normal a, st') => k a st'
    | (Throw e, st') => (Throw e, st')
    end.

Definition throw {A : Type} (e : Exn) : M A := fun st => (Throw e, st).

Definition tryCatch {A : Type} (m : M A) (handler : Exn -> M A) : M A :=
  fun st =>
    match m st with
    | (Normal a, st') => (Normal a, st')
    | (Throw e, st') => handler e st'
    end.

Notation "x <- c1 ;; c2" := (bind c1 (fun x => c2))
  (at level 61, c1 at next level, right associativity).
Notation "c1 ;; c2" := (bind c1 (fun _ => c2))
  (at level 61, right associativity).

Definition getResults : M (list ResultEntry) :=
  fun st => (Normal (heap_results st), st).

Definition setResults (rs : list ResultEntry) : M unit :=
  fun st => (Normal tt, mkState (trace st) (clockReads st) rs).

(** [results.push(entry)]. *)
Definition pushResult (entry : ResultEntry) : M unit :=
  fun st =>
    (Normal tt, mkState (trace st) (clockReads st) (heap_results st ++ [entry])).

(** [for (const x of xs) body]. *)
Fixpoint forOf {A : Type} (xs : list A) (body : A -> M unit) : M unit :=
  match xs with
  | [] => ret tt
  | x :: rest => body x ;; forOf rest body
  end.

(** ** The HTTP request and response of the handler *)

(** The JSON body as received; absent properties are [None]. *)
Record RawBody : Type := mkRawBody {
  raw_startDate : option string;
  raw_endDate : option string;
  raw_daysBack : option Z;
  raw_documentTypes : option (list string);
  raw_county : option string
}.

(** The body after [RequestSchema.parse]: defaults filled in. *)
Record Body : Type := mkBody {
  body_startDate : option string;
  body_endDate : option string;
  body_daysBack : option Z;
  body_documentTypes : list string;
  body_county : string
}.

Record Request : Type := mkRequest {
  method : string;
  body : option RawBody
}.

Inductive Json : Type :=
| MethodNotAllowed
| ScrapingCompleted (s : Summary) (rs : list ResultEntry)
| ScrapingFailed (s : Summary) (rs : list ResultEntry)
| InvalidRequestParameters
| InternalError (message : string).

Record Response : Type := mkResponse {
  status : Z;
  json : Json
}.

(** [RequestSchema.parse]: [daysBack], when given, must lie in 1..365;
    [documentTypes] defaults to [["DEED"]] and [county] to ["king"].
    [None] stands for a [ZodError]. *)
Definition RequestSchema_parse (raw : RawBody) : option Body :=
  let inRange :=
    match raw_daysBack raw with
    | Some n => (1 <=? n) && (n <=? 365)
    | None => true
    end in
  if inRange then
    Some (mkBody (raw_startDate raw) (raw_endDate raw) (raw_daysBack raw)
            (match raw_documentTypes raw with Some ts => ts | None => ["DEED"] end)
            (match raw_county raw with Some c => c | None => "king" end))
  else None.

Definition emptyBody : RawBody := mkRawBody None None None None None.

(** ** The scraper *)

Definition landmarkUrl : string :=
  "https://recordsearch.kingcounty.gov/LandmarkWeb".

Section Scraper.

Variable Date_parse : string -> option Js.Date.
Variable w : World.

(** One awaited call on a collaborator: it is appended to the trace and
    the world decides whether it resolves or rejects. *)
Definition call (c : Call) : M Val :=
  fun st =>
    let st' := mkState (trace st ++ [c]) (clockReads st) (heap_results st) in
    match respond w (List.length (trace st)) c with
    | Resolved v => (Normal v, st')
    | Rejected e => (Throw e, st')
    end.

(** [new Date()] / [Date.now()]. *)
Definition readClock : M Instant :=
  fun st =>
    (Normal (clock w (clockReads st)),
     mkState (trace st) (S (clockReads st)) (heap_results st)).

(** [S3Uploader.uploadFile] (s3-upload.ts, lines 18-51). *)
Definition uploadFile (fileBuffer : list Byte.byte) (fileName : string) : M string :=
  today <- readClock ;;
  let dateFolder := isoDay today in
  now <- readClock ;;
  let timestamp := millis now in
  let key := ("landmark-scraper/" ++ dateFolder ++ "/"
              ++ Js.toString timestamp ++ "-" ++ fileName)%string in
  let contentType :=
    if endsWith (toLowerCase fileName) ".csv" then "text/csv"
    else "application/pdf" in
  _ <- readClock ;;
  tryCatch
    (call (S3Send (S3_BUCKET_NAME w) key contentType fileBuffer) ;;
     ret ("s3://" ++ S3_BUCKET_NAME w ++ "/" ++ key)%string)
    (fun error =>
       throw (ErrorObject ("Failed to upload to S3: " ++ errorMessage error)%string)).

(** The export file name of line 149. *)
Definition exportFileName (county documentType date : string) : string :=
  (county ++ "-" ++ replaceWhiteSpaceRuns documentType ++ "-"
   ++ replaceSlashes date ++ ".csv")%string.

(** [fillDateField] (lines 70-81). *)
Definition fillDateField (selector dateValue : string) : M unit :=
  let field := ByRole "textbox" selector in
  call (Click field) ;;
  call (Press field "Control+a") ;;
  call (Press field "Delete") ;;
  call (Fill field dateValue) ;;
  call (PageWaitForTimeout 500) ;;
  ret tt.

Definition noRecords : ScrapeOutcome := mkOutcome true (Some "no-records") None.

(** The [try] block of [scrapeSingleDay] (lines 92-171).  The download
    promise is created before the click on the modal button and awaited
    after it; its outcome is consumed at the [await]. *)
Definition scrapeSingleDay_try (config : ScrapeConfig) (date documentType : string)
  : M ScrapeOutcome :=
  let documentSearchLink := ByRole "link" "Document Search" in
  visible <- call (IsVisible documentSearchLink 5000) ;;
  (if toBoolean visible
   then call (Click documentSearchLink) ;; call (PageWaitForTimeout 2000) ;; ret tt
   else ret tt) ;;
  let docTypeField := ByRole "textbox" "Document Type *" in
  call (Click docTypeField) ;;
  call (Press docTypeField "Control+a") ;;
  call (Fill docTypeField documentType) ;;
  call (PageWaitForTimeout 1000) ;;
  fillDateField "Begin Date" date ;;
  fillDateField "End Date" date ;;
  call (Click (ByRole "link" " Submit")) ;;
  call (PageWaitForTimeout 5000) ;;
  noResultsText <-
    tryCatch (call (IsVisible (BySelector "text=/no records found/i") 3000))
             (fun _ => ret (VBool false)) ;;
  if toBoolean noResultsText then ret noRecords
  else
    let exportButton := ByRole "link" " Export" in
    exportVisible <- call (IsVisible exportButton 5000) ;;
    if negb (toBoolean exportVisible) then ret noRecords
    else
      call (Click exportButton) ;;
      call (PageWaitForTimeout 2000) ;;
      call (Click (BySelector "#exportResultsModalButton")) ;;
      call (WaitForEvent "download" 30000) ;;
      let fileName := exportFileName (county config) documentType date in
      call CreateReadStream ;;
      chunks <- call ReadStream ;;
      let buffer := bufferOf chunks in
      s3Path <- uploadFile buffer fileName ;;
      call PageGoBack ;;
      call (PageWaitForTimeout 2000) ;;
      ret (mkOutcome true (Some s3Path) None).

(** [scrapeSingleDay] (lines 86-180): the whole body sits in one
    [try]; the [catch] turns the exception into an outcome. *)
Definition scrapeSingleDay (config : ScrapeConfig) (date documentType : string)
  : M ScrapeOutcome :=
  tryCatch (scrapeSingleDay_try config date documentType)
    (fun error => ret (mkOutcome false None (Some (errorMessage error)))).

(** [r => r.s3Path && !r.error] and [r => r.error] (lines 229-230 and
    260-261). *)
Definition countsAsSuccessful (r : ResultEntry) : bool :=
  Js.truthy (s3Path r) && negb (Js.truthy (error r)).

Definition countsAsFailed (r : ResultEntry) : bool :=
  Js.truthy (error r).

(** The [try] block of [execute] (lines 190-243). *)
Definition execute_try (config : ScrapeConfig) : M ExecutionResult :=
  call StagehandInit ;;
  call (PageGoto landmarkUrl 60000) ;;
  call (PageWaitForTimeout 3000) ;;
  let dates := generateDateRange Date_parse (startDate config) (endDate config) in
  forOf dates (fun date =>
    forOf (documentTypes config) (fun documentType =>
      result <- scrapeSingleDay config date documentType ;;
      pushResult (mkEntry date documentType
                    (outcome_s3Path result) (outcome_error result)) ;;
      call (PageWaitForTimeout 2000) ;;
      ret tt)) ;;
  results <- getResults ;;
  let successful := List.length (filter countsAsSuccessful results) in
  let failed := List.length (filter countsAsFailed results) in
  call StagehandClose ;;
  ret (mkResult true results (mkSummary (List.length results) successful failed)).

(** The [catch] block of [execute] (lines 245-264). *)
Definition execute_catch (error : Exn) : M ExecutionResult :=
  tryCatch (call StagehandClose ;; ret tt) (fun closeError => ret tt) ;;
  results <- getResults ;;
  ret (mkResult false results
         (mkSummary (List.length results)
            (List.length (filter countsAsSuccessful results))
            (List.length (filter countsAsFailed results) + 1))).

(** [execute] (lines 182-265). *)
Definition execute (config : ScrapeConfig) : M ExecutionResult :=
  setResults [] ;;
  tryCatch (execute_try config) execute_catch.

(** [body.daysBack || 30]. *)
Definition daysBackOrDefault (daysBack : option Z) : Z :=
  match daysBack with
  | Some n => if n =? 0 then 30 else n
  | None => 30
  end.

(** The date range of the handler (lines 86-102). *)
Definition handlerDateRange (body : Body) : M (string * string) :=
  if Js.truthy (body_startDate body) && Js.truthy (body_endDate body) then
    match body_startDate body, body_endDate body with
    | Some startDate, Some endDate => ret (startDate, endDate)
    | _, _ => ret (EmptyString, EmptyString)    (* unreachable *)
    end
  else
    let daysBack := daysBackOrDefault (body_daysBack body) in
    end_ <- readClock ;;
    start <- readClock ;;
    let start := Js.setDate (localDate start)
                   (Js.getDate (localDate start) - daysBack) in
    ret (formatDate start, formatDate (localDate end_)).

(** [handler] (lines 71-148). *)
Definition handler (req : Request) : M Response :=
  if negb (String.eqb (method req) "POST") then
    ret (mkResponse 405 MethodNotAllowed)
  else
    tryCatch
      (match RequestSchema_parse
               (match body req with Some raw => raw | None => emptyBody end) with
       | None => ret (mkResponse 400 InvalidRequestParameters)
       | Some body =>
           range <- handlerDateRange body ;;
           let config := mkConfig (fst range) (snd range)
                           (body_documentTypes body) (body_county body) in
           result <- execute config ;;
           if success result
           then ret (mkResponse 200
                       (ScrapingCompleted (summary result) (results result)))
           else ret (mkResponse 500
                       (ScrapingFailed (summary result) (results result)))
       end)
      (fun error =>
         ret (mkResponse 500
                (InternalError
                   (match error with
                    | ErrorObject message => message
                    | ThrownValue _ => "Internal server error"
                    end)))).

End Scraper.

(** ** Sample worlds and configurations *)

Definition sampleClock (n : nat) : Instant :=
  mkInstant (Js.mkDate 2024 2 5) "2024-03-05" (1709640000000 + Z.of_nat n).

(** A site that has records for every search and never fails. *)
Definition siteWithRecords : World :=
  mkWorld
    (fun _ c =>
       match c with
       | IsVisible (BySelector _) _ => Resolved (VBool false)
       | IsVisible (ByRole _ _) _ => Resolved (VBool true)
       | ReadStream => Resolved (VBuffer [Byte.x61; Byte.x2c; Byte.x62])
       | _ => Resolved VUndefined
       end)
    sampleClock "records".

(** The same site when the session cannot be opened. *)
Definition sessionCannotOpen : World :=
  mkWorld
    (fun n c =>
       match c with
       | StagehandInit => Rejected (ErrorObject "connection refused")
       | _ => respond siteWithRecords n c
       end)
    sampleClock "records".

(** The same site when the initial navigation times out. *)
Definition navigationFails : World :=
  mkWorld
    (fun n c =>
       match c with
       | PageGoto _ _ => Rejected (ErrorObject "Timeout 60000ms exceeded")
       | _ => respond siteWithRecords n c
       end)
    sampleClock "records".

(** The same site when closing the session fails. *)
Definition closeFails : World :=
  mkWorld
    (fun n c =>
       match c with
       | StagehandClose => Rejected (ErrorObject "session already gone")
       | _ => respond siteWithRecords n c
       end)
    sampleClock "records".

(** A site whose first interaction of each unit throws an [Error] with
    an empty message, and whose pause between units fails. *)
Definition emptyMessageThenAbort : World :=
  mkWorld
    (fun n c =>
       match c with
       | IsVisible _ _ => Rejected (ErrorObject "")
       | PageWaitForTimeout 2000 => Rejected (ErrorObject "Target closed")
       | _ => Resolved VUndefined
       end)
    sampleClock "records".

Definition oneDayOneType : ScrapeConfig :=
  mkConfig "03/05/2024" "03/05/2024" ["QUITCLAIM DEED"] "king".

Definition threeDaysTwoTypes : ScrapeConfig :=
  mkConfig "01/01/2024" "01/03/2024" ["DEED"; "QUITCLAIM DEED"] "king".

Definition invertedRange : ScrapeConfig :=
  mkConfig "01/03/2024" "01/01/2024" ["DEED"] "king".

(** * Properties *)

(** ** Date enumeration *)

Lemma dateLoop_clause date end_ dates (b : bool)
    (e : (Js.valueOf date <=? Js.valueOf end_) = b) :
  dateLoop_unfold_clause_1 date end_ (exist _ b e) dates =
  if b
  then dateLoop (Js.setDate date (Js.getDate date + 1)) end_
         (dates ++ [formatDate date])
  else dates.
Proof. destruct b; reflexivity. Qed.

Lemma dateLoop_step date end_ dates :
  dateLoop date end_ dates =
  if Js.valueOf date <=? Js.valueOf end_
  then dateLoop (Js.setDate date (Js.getDate date + 1)) end_
         (dates ++ [formatDate date])
  else dates.
Proof.
  rewrite dateLoop_equation_1. unfold inspect. apply dateLoop_clause.
Qed.

(** The [n] consecutive days that start at [date]. *)
Fixpoint daysFrom (date : Js.Date) (n : nat) : list Js.Date :=
  match n with
  | O => []
  | S k => date :: daysFrom (Js.setDate date (Js.getDate date + 1)) k
  end.

(** Number of days from [start] to [end_], both included. *)
Definition daysInclusive (start end_ : Js.Date) : nat :=
  Z.to_nat (Js.valueOf end_ + 1 - Js.valueOf start).

Lemma dateLoop_daysFrom (n : nat) :
  forall date end_ dates,
    n = daysInclusive date end_ ->
    dateLoop date end_ dates = dates ++ map formatDate (daysFrom date n).
Proof.
  unfold daysInclusive.
  induction n as [| k IH]; intros date end_ dates Hn; rewrite dateLoop_step.
  - destruct (Js.valueOf date <=? Js.valueOf end_) eqn:E.
    + apply Z.leb_le in E. lia.
    + cbn. now rewrite app_nil_r.
  - destruct (Js.valueOf date <=? Js.valueOf end_) eqn:E.
    + rewrite (IH _ end_).
      * cbn [daysFrom map]. now rewrite <- app_assoc.
      * rewrite valueOf_setDate. lia.
    + apply Z.leb_gt in E. lia.
Qed.

Lemma daysFrom_valueOf (n : nat) :
  forall date,
    map Js.valueOf (daysFrom date n)
    = map (fun i => Js.valueOf date + Z.of_nat i) (seq 0 n).
Proof.
  induction n as [| k IH]; intros date; [reflexivity |].
  cbn [daysFrom map seq]. rewrite IH, valueOf_setDate, <- seq_shift, map_map.
  f_equal; [lia |]. apply map_ext. intros i. lia.
Qed.

Lemma daysFrom_valid (n : nat) :
  forall date, Js.validDate date -> Forall Js.validDate (daysFrom date n).
Proof.
  induction n as [| k IH]; intros date Hv; cbn [daysFrom]; constructor.
  - exact Hv.
  - apply IH, setDate_next_valid, Hv.
Qed.

(** *** A day number names one calendar day *)

Lemma DayFromYear_mono (y y' : Z) :
  y <= y' -> Js.DayFromYear y <= Js.DayFromYear y'.
Proof.
  intros H. unfold Js.DayFromYear. Z.div_mod_to_equations. lia.
Qed.

Lemma leapDay_bounds (y : Z) : 0 <= Js.leapDay y <= 1.
Proof. unfold Js.leapDay. destruct (Js.InLeapYear y); lia. Qed.

Ltac month_cases m :=
  let H := fresh "Hc" in
  assert (H : m = 0 \/ m = 1 \/ m = 2 \/ m = 3 \/ m = 4 \/ m = 5 \/ m = 6 \/
              m = 7 \/ m = 8 \/ m = 9 \/ m = 10 \/ m = 11) by lia;
  repeat (destruct H as [H | H]); subst m.

Lemma dayOfYear_bounds (y m dd : Z) :
  0 <= m <= 11 -> 1 <= dd <= Js.monthLength y m ->
  1 <= Js.monthStart y m + dd <= 365 + Js.leapDay y.
Proof.
  intros Hm Hd. pose proof (leapDay_bounds y) as Hl.
  month_cases m; cbv [Js.monthStart Js.monthLength] in *; lia.
Qed.

Lemma dayOfYear_inj (y m dd m' dd' : Z) :
  0 <= m <= 11 -> 1 <= dd <= Js.monthLength y m ->
  0 <= m' <= 11 -> 1 <= dd' <= Js.monthLength y m' ->
  Js.monthStart y m + dd = Js.monthStart y m' + dd' ->
  m = m' /\ dd = dd'.
Proof.
  intros Hm Hd Hm' Hd' E. pose proof (leapDay_bounds y) as Hl.
  month_cases m; month_cases m';
    cbv [Js.monthStart Js.monthLength] in *; lia.
Qed.

Lemma valueOf_valid (d : Js.Date) :
  Js.validDate d ->
  Js.valueOf d
  = Js.DayFromYear (Js.getFullYear d)
    + Js.monthStart (Js.getFullYear d) (Js.getMonth d) + Js.getDate d - 1.
Proof.
  intros [Hm _]. unfold Js.valueOf, Js.MakeDay.
  rewrite (Z.div_small (Js.getMonth d) 12), (Z.mod_small (Js.getMonth d) 12),
    Z.add_0_r by lia.
  reflexivity.
Qed.

Lemma valueOf_inj (d d' : Js.Date) :
  Js.validDate d -> Js.validDate d' -> Js.valueOf d = Js.valueOf d' -> d = d'.
Proof.
  intros Hv Hv' E.
  rewrite (valueOf_valid d Hv), (valueOf_valid d' Hv') in E.
  destruct d as [y m dd], d' as [y' m' dd'].
  destruct Hv as [Hm Hd], Hv' as [Hm' Hd'].
  cbn [Js.getFullYear Js.getMonth Js.getDate] in *.
  pose proof (dayOfYear_bounds y m dd Hm Hd) as B.
  pose proof (dayOfYear_bounds y' m' dd' Hm' Hd') as B'.
  assert (Hy : y = y').
  { destruct (Z.lt_trichotomy y y') as [L | [L | L]]; [| exact L |].
    - pose proof (DayFromYear_mono (y + 1) y' ltac:(lia)) as Hmono.
      rewrite DayFromYear_succ in Hmono. lia.
    - pose proof (DayFromYear_mono (y' + 1) y ltac:(lia)) as Hmono.
      rewrite DayFromYear_succ in Hmono. lia. }
  subst y'.
  destruct (dayOfYear_inj y m dd m' dd' Hm Hd Hm' Hd' ltac:(lia)) as [-> ->].
  reflexivity.
Qed.

(** *** Shape of a formatted date *)

Definition twoDigits (s : string) : bool :=
  match s with
  | String a (String b EmptyString) => isDigit a && isDigit b
  | _ => false
  end.

Lemma padStart_two_digits (n : Z) :
  1 <= n <= 31 -> twoDigits (Js.padStart (Js.toString n) 2 "0") = true.
Proof.
  intros Hn.
  assert (Hall : forallb (fun k => twoDigits (Js.padStart (Js.toString k) 2 "0"))
                   (map Z.of_nat (seq 1 31)) = true) by (vm_compute; reflexivity).
  rewrite forallb_forall in Hall. apply Hall.
  apply in_map_iff. exists (Z.to_nat n). split; [lia |].
  apply in_seq. lia.
Qed.

Definition fourDigits (s : string) : bool :=
  match s with
  | String a (String b (String c (String d EmptyString))) =>
      isDigit a && isDigit b && isDigit c && isDigit d
  | _ => false
  end.

Lemma toString_four_digits (y : Z) :
  1000 <= y <= 9999 -> fourDigits (Js.toString y) = true.
Proof.
  intros Hy.
  assert (Hall : forallb (fun k => fourDigits (Js.toString k))
                   (map (fun i => 1000 + Z.of_nat i) (seq 0 (Z.to_nat 9000)))
                 = true) by (vm_compute; reflexivity).
  rewrite forallb_forall in Hall. apply Hall.
  apply in_map_iff. exists (Z.to_nat (y - 1000)). split; [lia |].
  apply in_seq. lia.
Qed.

(** A well-formed date prints as two digits, a slash, two digits, a
    slash and the year; the year is not padded, so it takes four digits
    exactly for the years 1000 to 9999. *)
Definition printsAsMonthDayYear (d : Js.Date) : Prop :=
  exists mm dd yyyy,
    formatDate d = (mm ++ "/" ++ dd ++ "/" ++ yyyy)%string /\
    twoDigits mm = true /\ twoDigits dd = true /\
    yyyy = Js.toString (Js.getFullYear d) /\
    (1000 <= Js.getFullYear d <= 9999 -> fourDigits yyyy = true).

Lemma formatDate_shape (d : Js.Date) :
  Js.validDate d -> printsAsMonthDayYear d.
Proof.
  intros [Hm Hd]. pose proof (monthLength_bounds (Js.getFullYear d) (Js.getMonth d)).
  exists (Js.padStart (Js.toString (Js.getMonth d + 1)) 2 "0"),
         (Js.padStart (Js.toString (Js.getDate d)) 2 "0"),
         (Js.toString (Js.getFullYear d)).
  split; [reflexivity |].
  split; [apply padStart_two_digits; lia |].
  split; [apply padStart_two_digits; lia |].
  split; [reflexivity | apply toString_four_digits].
Qed.

(** The slash reader only produces well-formed dates. *)
Lemma normalizeDay_valid (f : nat) (y m dt : Z) :
  0 <= m <= 11 -> 1 <= dt <= 56 ->
  Js.validDate (Js.normalizeDay (S (S f)) y m dt).
Proof.
  intros Hm Hd. pose proof (monthLength_bounds y m) as Hb.
  assert (Hfit : forall y' m' dt', 0 <= m' <= 11 -> 1 <= dt' <= 28 ->
            Js.validDate (Js.normalizeDay (S f) y' m' dt')).
  { intros y' m' dt' Hm' Hd'. pose proof (monthLength_bounds y' m').
    cbn [Js.normalizeDay].
    destruct (dt' <? 1) eqn:E1; [apply Z.ltb_lt in E1; lia |].
    rewrite daysInMonth_in_year by lia.
    destruct (Js.monthLength y' m' <? dt') eqn:E2; [apply Z.ltb_lt in E2; lia |].
    unfold Js.validDate. cbn [Js.getFullYear Js.getMonth Js.getDate]. lia. }
  remember (S f) as f' eqn:Ef. cbn [Js.normalizeDay]. subst f'.
  destruct (dt <? 1) eqn:E1; [apply Z.ltb_lt in E1; lia |].
  rewrite (daysInMonth_in_year y m) by lia.
  destruct (Js.monthLength y m <? dt) eqn:E2.
  - apply Z.ltb_lt in E2.
    destruct (m =? 11) eqn:E11; [| apply Z.eqb_neq in E11]; apply Hfit; lia.
  - apply Z.ltb_ge in E2. destruct f; cbn [Js.normalizeDay];
      unfold Js.validDate; cbn [Js.getFullYear Js.getMonth Js.getDate]; lia.
Qed.

Lemma parseSlashDate_valid (s : string) (d : Js.Date) :
  parseSlashDate s = Some d -> Js.validDate d.
Proof.
  unfold parseSlashDate.
  destruct (split "/" s) as [| mm [| dd [| yyyy [| ? ?]]]]; try discriminate.
  destruct (parseDigits mm) as [m |]; [| discriminate].
  destruct (parseDigits dd) as [dt |]; [| discriminate].
  destruct (parseDigits yyyy) as [y |]; [| discriminate].
  destruct ((1 <=? m) && (m <=? 12) && (1 <=? dt) && (dt <=? 31)) eqn:E;
    [| discriminate].
  intros H. injection H as <-.
  repeat (apply andb_prop in E; destruct E as [E ?]).
  rewrite ?Z.leb_le in *.
  unfold Js.setDate. cbn [Js.getFullYear Js.getMonth].
  destruct (Z.to_nat (Z.abs dt)) as [| f] eqn:Ef; [lia |].
  apply normalizeDay_valid; lia.
Qed.



(** ** Reasoning about computations *)

(** [m] leaves the observation [f] of the state unchanged. *)
Definition preserves {A B : Type} (f : State -> B) (m : M A) : Prop :=
  forall st, f (snd (m st)) = f st.

(** [m] leaves the [results] array alone. *)
Abbreviation keeps := (preserves heap_results).

(** Number of [stagehand.close()] attempts so far. *)
Definition isClose (c : Call) : bool :=
  match c with StagehandClose => true | _ => false end.

Definition closeAttempts (st : State) : nat :=
  List.length (filter isClose (trace st)).

(** [m] never attempts to close the session. *)
Abbreviation quiet := (preserves closeAttempts).

(** Every value [m] returns satisfies [P]. *)
Definition post {A : Type} (m : M A) (P : A -> Prop) : Prop :=
  forall st a st', m st = (Normal a, st') -> P a.

Lemma preserves_ret {A B} (f : State -> B) (a : A) : preserves f (ret a).
Proof. intros st. reflexivity. Qed.

Lemma preserves_throw {A B} (f : State -> B) (e : Exn) : preserves f (@throw A e).
Proof. intros st. reflexivity. Qed.

Lemma preserves_bind {A B C} (f : State -> C) (m : M A) (k : A -> M B) :
  preserves f m -> (forall a, preserves f (k a)) -> preserves f (bind m k).
Proof.
  intros Hm Hk st. unfold bind. specialize (Hm st).
  destruct (m st) as [[a | e] st1]; cbn [snd] in *.
  - now rewrite Hk.
  - exact Hm.
Qed.

Lemma preserves_tryCatch {A C} (f : State -> C) (m : M A) (h : Exn -> M A) :
  preserves f m -> (forall e, preserves f (h e)) -> preserves f (tryCatch m h).
Proof.
  intros Hm Hh st. unfold tryCatch. specialize (Hm st).
  destruct (m st) as [[a | e] st1]; cbn [snd] in *.
  - exact Hm.
  - now rewrite Hh.
Qed.

Lemma preserves_forOf {A C} (f : State -> C) (xs : list A) (body : A -> M unit) :
  (forall x, preserves f (body x)) -> preserves f (forOf xs body).
Proof.
  intros Hbody. induction xs as [| x xs IH]; cbn [forOf].
  - apply preserves_ret.
  - apply preserves_bind; [apply Hbody | intros _; exact IH].
Qed.

Lemma keeps_call (w : World) (c : Call) : keeps (call w c).
Proof. intros st. unfold call. destruct (respond w _ c); reflexivity. Qed.

Lemma keeps_readClock (w : World) : keeps (readClock w).
Proof. intros st. reflexivity. Qed.

Lemma closeAttempts_call (w : World) (c : Call) (st : State) :
  closeAttempts (snd (call w c st))
  = (closeAttempts st + (if isClose c then 1 else 0))%nat.
Proof.
  unfold call, closeAttempts.
  destruct (respond w _ c); cbn [snd trace];
    rewrite filter_app, length_app; cbn [filter];
    destruct (isClose c); reflexivity.
Qed.

Lemma quiet_call (w : World) (c : Call) :
  isClose c = false -> quiet (call w c).
Proof. intros Hc st. rewrite closeAttempts_call, Hc. lia. Qed.

Lemma quiet_readClock (w : World) : quiet (readClock w).
Proof. intros st. reflexivity. Qed.

Lemma quiet_pushResult (entry : ResultEntry) : quiet (pushResult entry).
Proof. intros st. reflexivity. Qed.

Lemma post_ret {A} (a : A) (P : A -> Prop) : P a -> post (ret a) P.
Proof. intros H st a' st' E. injection E as <- _. exact H. Qed.

Lemma post_throw {A} (e : Exn) (P : A -> Prop) : post (throw e) P.
Proof. intros st a st' E. discriminate. Qed.

Lemma post_bind {A B} (m : M A) (k : A -> M B) (P : B -> Prop) :
  (forall a, post (k a) P) -> post (bind m k) P.
Proof.
  intros Hk st b st' E. unfold bind in E.
  destruct (m st) as [[a | e] st1]; [| discriminate].
  exact (Hk a st1 b st' E).
Qed.

Lemma post_bind_with {A B} (m : M A) (k : A -> M B) (Q : A -> Prop) (P : B -> Prop) :
  post m Q -> (forall a, Q a -> post (k a) P) -> post (bind m k) P.
Proof.
  intros Hm Hk st b st' E. unfold bind in E.
  destruct (m st) as [[a | e] st1] eqn:Em; [| discriminate].
  exact (Hk a (Hm st a st1 Em) st1 b st' E).
Qed.

Lemma post_tryCatch {A} (m : M A) (h : Exn -> M A) (P : A -> Prop) :
  post m P -> (forall e, post (h e) P) -> post (tryCatch m h) P.
Proof.
  intros Hm Hh st a st' E. unfold tryCatch in E.
  destruct (m st) as [[a' | e] st1] eqn:Em.
  - injection E as <- _. exact (Hm st a' st1 Em).
  - exact (Hh e st1 a st' E).
Qed.

Ltac preserves_step :=
  first
    [ apply preserves_ret
    | apply preserves_throw
    | apply keeps_call
    | apply keeps_readClock
    | apply quiet_call; reflexivity
    | apply quiet_readClock
    | apply quiet_pushResult
    | apply preserves_bind; [| intros ?]
    | apply preserves_tryCatch; [| intros ?]
    | match goal with
      | |- preserves _ (if ?b then _ else _) => destruct b
      end ].

Ltac preserves_auto := repeat preserves_step.

Lemma string_app_assoc (a b c : string) :
  ((a ++ b) ++ c)%string = (a ++ (b ++ c))%string.
Proof. induction a as [| x a IH]; cbn; [reflexivity | now rewrite IH]. Qed.

Section ScraperFacts.

Variable w : World.
Variable config : ScrapeConfig.

Lemma keeps_uploadFile buffer fileName : keeps (uploadFile w buffer fileName).
Proof. unfold uploadFile. preserves_auto. Qed.

Lemma keeps_fillDateField selector value : keeps (fillDateField w selector value).
Proof. unfold fillDateField. preserves_auto. Qed.

Lemma keeps_scrapeSingleDay date documentType :
  keeps (scrapeSingleDay w config date documentType).
Proof.
  unfold scrapeSingleDay, scrapeSingleDay_try.
  repeat first [apply keeps_uploadFile | apply keeps_fillDateField | preserves_step].
Qed.

(** A locator returned by [uploadFile] is the bucket URL followed by the
    file name. *)
Lemma post_uploadFile buffer fileName :
  post (uploadFile w buffer fileName)
       (fun s3Path => exists folder, s3Path = ("s3://" ++ folder ++ fileName)%string).
Proof.
  unfold uploadFile.
  apply post_bind; intros today. apply post_bind; intros now.
  apply post_bind; intros _. apply post_tryCatch.
  - apply post_bind; intros _. apply post_ret.
    exists (S3_BUCKET_NAME w ++ "/" ++ "landmark-scraper/" ++ isoDay today ++ "/"
            ++ Js.toString (millis now) ++ "-")%string.
    now rewrite !string_app_assoc.
  - intros e. apply post_throw.
Qed.

(** What the [try] block of [scrapeSingleDay] can return. *)
Definition archivedOrEmpty (date documentType : string) (o : ScrapeOutcome) : Prop :=
  o = noRecords \/
  exists folder,
    o = mkOutcome true
          (Some ("s3://" ++ folder
                 ++ exportFileName (county config) documentType date)%string)
          None.

Lemma post_scrapeSingleDay_try date documentType :
  post (scrapeSingleDay_try w config date documentType)
       (archivedOrEmpty date documentType).
Proof.
  unfold scrapeSingleDay_try.
  repeat (apply post_bind; intros ?).
  destruct (toBoolean _); [apply post_ret; now left |].
  apply post_bind; intros exportVisible.
  destruct (negb _); [apply post_ret; now left |].
  repeat lazymatch goal with
         | |- post (bind (uploadFile _ _ _) _) _ => fail
         | |- post (bind _ _) _ => apply post_bind; intros ?
         end.
  apply (post_bind_with _ _ _ _ (post_uploadFile _ _)).
  intros s3Path [folder ->].
  repeat (apply post_bind; intros ?). apply post_ret. right. now exists folder.
Qed.

(** An outcome is a success with a non-empty locator and no error, or a
    failure with an error message and no locator. *)
Definition outcomeShape (o : ScrapeOutcome) : Prop :=
  (outcome_success o = true /\ Js.truthy (outcome_s3Path o) = true
   /\ outcome_error o = None)
  \/ (outcome_success o = false /\ outcome_s3Path o = None
      /\ exists message, outcome_error o = Some message).

Lemma scrapeSingleDay_total date documentType (st : State) :
  exists o st',
    scrapeSingleDay w config date documentType st = (Normal o, st') /\
    heap_results st' = heap_results st /\
    outcomeShape o.
Proof.
  pose proof (keeps_scrapeSingleDay date documentType st) as Hk.
  unfold scrapeSingleDay, tryCatch in *.
  destruct (scrapeSingleDay_try w config date documentType st)
    as [[o | e] st1] eqn:E; cbn [snd] in Hk.
  - exists o, st1. repeat split; [exact Hk |].
    destruct (post_scrapeSingleDay_try _ _ _ _ _ E) as [-> | [folder ->]];
      left; repeat split.
  - eexists _, st1. repeat split; [exact Hk |].
    right. repeat split. now eexists.
Qed.

End ScraperFacts.

(** ** The orchestration loop *)

(** An entry of [results] carries a non-empty locator and no error, or
    an error message and no locator. *)
Definition entryShape (r : ResultEntry) : Prop :=
  (Js.truthy (s3Path r) = true /\ error r = None)
  \/ (s3Path r = None /\ exists message, error r = Some message).

Definition unitOf (r : ResultEntry) : string * string :=
  (date r, documentType r).

(** [m] appends to [results] one well-shaped entry per unit of [units],
    in order, or a prefix of that when it throws. *)
Definition grows {A : Type} (units : list (string * string)) (m : M A) : Prop :=
  forall st,
  exists entries,
    heap_results (snd (m st)) = heap_results st ++ entries /\
    Forall entryShape entries /\
    match fst (m st) with
    | Normal _ => map unitOf entries = units
    | Throw _ => exists rest, units = map unitOf entries ++ rest
    end.

Lemma grows_keeps {A} (m : M A) : keeps m -> grows [] m.
Proof.
  intros Hk st. exists []. rewrite app_nil_r. repeat split.
  - apply Hk.
  - constructor.
  - destruct (fst (m st)); [reflexivity | now exists []].
Qed.

Lemma grows_bind {A B} (units1 units2 : list (string * string))
    (m : M A) (k : A -> M B) :
  grows units1 m -> (forall a, grows units2 (k a)) ->
  grows (units1 ++ units2) (bind m k).
Proof.
  intros Hm Hk st. unfold bind.
  destruct (Hm st) as (es1 & Hh1 & Hs1 & Hu1).
  destruct (m st) as [[a | e] st1]; cbn [fst snd] in *.
  - destruct (Hk a st1) as (es2 & Hh2 & Hs2 & Hu2).
    exists (es1 ++ es2). repeat split.
    + now rewrite Hh2, Hh1, app_assoc.
    + now apply Forall_app.
    + destruct (fst (k a st1)).
      * now rewrite map_app, Hu1, Hu2.
      * destruct Hu2 as [rest ->]. exists rest.
        now rewrite map_app, Hu1, app_assoc.
  - exists es1. repeat split; [exact Hh1 | exact Hs1 |].
    destruct Hu1 as [rest ->]. exists (rest ++ units2). now rewrite app_assoc.
Qed.

Lemma grows_forOf {A} (g : A -> list (string * string))
    (body : A -> M unit) (xs : list A) :
  (forall x, grows (g x) (body x)) -> grows (flat_map g xs) (forOf xs body).
Proof.
  intros Hbody. induction xs as [| x xs IH]; cbn [forOf flat_map].
  - apply grows_keeps, preserves_ret.
  - apply grows_bind; [apply Hbody | intros _; exact IH].
Qed.

Lemma flat_map_singleton {A B} (f : A -> B) (xs : list A) :
  flat_map (fun x => [f x]) xs = map f xs.
Proof. induction xs as [| x xs IH]; cbn; [reflexivity | now rewrite IH]. Qed.

Lemma flat_map_list_prod {A B} (xs : list A) (ys : list B) :
  flat_map (fun x => map (pair x) ys) xs = list_prod xs ys.
Proof. induction xs as [| x xs IH]; cbn; [reflexivity | now rewrite IH]. Qed.

Lemma bind_run {A B} (m : M A) (k : A -> M B) (st : State) :
  bind m k st =
  match m st with
  | (Normal a, st') => k a st'
  | (Throw e, st') => (Throw e, st')
  end.
Proof. reflexivity. Qed.

Section ExecuteFacts.

Variable Date_parse : string -> option Js.Date.
Variable w : World.
Variable config : ScrapeConfig.

(** One unit of work: scrape, record, pause. *)
Lemma grows_unit (date documentType : string) :
  grows [(date, documentType)]
    (result <- scrapeSingleDay w config date documentType ;;
     pushResult (mkEntry date documentType
                   (outcome_s3Path result) (outcome_error result)) ;;
     call w (PageWaitForTimeout 2000) ;;
     ret tt).
Proof.
  intros st. rewrite bind_run.
  destruct (scrapeSingleDay_total w config date documentType st)
    as (o & st1 & -> & Hh & Hshape).
  exists [mkEntry date documentType (outcome_s3Path o) (outcome_error o)].
  rewrite bind_run. cbn [pushResult]. rewrite bind_run. unfold call.
  cbn [trace clockReads heap_results].
  repeat split.
  - destruct (respond w _ _); cbn [snd ret heap_results]; now rewrite Hh.
  - constructor; [| constructor]. unfold entryShape. cbn [s3Path error].
    destruct Hshape as [(_ & Ht & He) | (_ & Hp & He)]; [left | right]; now split.
  - destruct (respond w _ _); cbn [fst ret]; [reflexivity | now exists []].
Qed.

Definition plannedUnits : list (string * string) :=
  list_prod (generateDateRange Date_parse (startDate config) (endDate config))
            (documentTypes config).

Lemma grows_units :
  grows plannedUnits
    (forOf (generateDateRange Date_parse (startDate config) (endDate config))
       (fun date =>
          forOf (documentTypes config) (fun documentType =>
            result <- scrapeSingleDay w config date documentType ;;
            pushResult (mkEntry date documentType
                          (outcome_s3Path result) (outcome_error result)) ;;
            call w (PageWaitForTimeout 2000) ;;
            ret tt))).
Proof.
  unfold plannedUnits. rewrite <- flat_map_list_prod.
  apply grows_forOf. intros date.
  rewrite <- (flat_map_singleton (pair date)).
  apply grows_forOf. intros documentType. apply grows_unit.
Qed.

(** The summary the [catch] block reports. *)
Definition failureResult (rs : list ResultEntry) : ExecutionResult :=
  mkResult false rs
    (mkSummary (List.length rs)
       (List.length (filter countsAsSuccessful rs))
       (List.length (filter countsAsFailed rs) + 1)).

(** The summary the [try] block reports. *)
Definition successResult (rs : list ResultEntry) : ExecutionResult :=
  mkResult true rs
    (mkSummary (List.length rs)
       (List.length (filter countsAsSuccessful rs))
       (List.length (filter countsAsFailed rs))).

Lemma execute_catch_run (e : Exn) (st : State) :
  exists st',
    execute_catch w e st = (Normal (failureResult (heap_results st)), st') /\
    trace st' = trace st ++ [StagehandClose].
Proof.
  unfold execute_catch. rewrite bind_run. unfold tryCatch. rewrite bind_run.
  unfold call. destruct (respond w _ _); eexists; split; reflexivity.
Qed.

(** Every run of [execute] returns: normally with one entry per planned
    unit, or through the [catch] block with a prefix of them. *)
Lemma execute_run (st : State) :
  exists rs st',
    Forall entryShape rs /\
    ((execute Date_parse w config st = (Normal (successResult rs), st')
      /\ map unitOf rs = plannedUnits)
     \/ (execute Date_parse w config st = (Normal (failureResult rs), st')
         /\ exists rest, plannedUnits = map unitOf rs ++ rest)).
Proof.
  unfold execute. rewrite bind_run. cbn [setResults].
  set (st0 := mkState (trace st) (clockReads st) []).
  unfold tryCatch, execute_try.
  (* a failure before the loop: nothing was collected *)
  assert (Hearly : forall e st1, heap_results st1 = [] ->
            exists rs st',
              Forall entryShape rs /\
              ((execute_catch w e st1 = (Normal (successResult rs), st')
                /\ map unitOf rs = plannedUnits)
               \/ (execute_catch w e st1 = (Normal (failureResult rs), st')
                   /\ exists rest, plannedUnits = map unitOf rs ++ rest))).
  { intros e st1 Hh. destruct (execute_catch_run e st1) as (st' & Hc & _).
    rewrite Hh in Hc. exists [], st'. split; [constructor |].
    right. split; [exact Hc | now exists plannedUnits]. }
  rewrite bind_run.
  pose proof (keeps_call w StagehandInit st0) as K1.
  destruct (call w StagehandInit st0) as [[v1 | e1] st1]; cbn [snd] in K1;
    [| apply Hearly; exact K1].
  rewrite bind_run.
  pose proof (keeps_call w (PageGoto landmarkUrl 60000) st1) as K2.
  destruct (call w (PageGoto _ _) st1) as [[v2 | e2] st2]; cbn [snd] in K2;
    [| apply Hearly; now rewrite K2].
  rewrite bind_run.
  pose proof (keeps_call w (PageWaitForTimeout 3000) st2) as K3.
  destruct (call w (PageWaitForTimeout 3000) st2) as [[v3 | e3] st3]; cbn [snd] in K3;
    [| apply Hearly; now rewrite K3, K2].
  rewrite bind_run.
  destruct (grows_units st3) as (es & Hh & Hs & Hu).
  rewrite K3, K2, K1 in Hh. cbn [st0 heap_results app] in Hh.
  destruct (forOf _ _ st3) as [[u | e4] st4]; cbn [fst snd] in Hh, Hu.
  - rewrite bind_run. cbn [getResults]. rewrite bind_run.
    pose proof (keeps_call w StagehandClose st4) as K5.
    destruct (call w StagehandClose st4) as [[v5 | e5] st5]; cbn [snd] in K5.
    + exists es, st5. split; [exact Hs |]. left. rewrite Hh. now split.
    + destruct (execute_catch_run e5 st5) as (st' & Hc & _).
      exists es, st'. split; [exact Hs |]. right.
      rewrite K5, Hh in Hc. split; [exact Hc |].
      exists []. now rewrite app_nil_r.
  - destruct (execute_catch_run e4 st4) as (st' & Hc & _).
    exists es, st'. split; [exact Hs |]. right.
    rewrite Hh in Hc. now split.
Qed.

End ExecuteFacts.

(** ** Properties of [execute] *)

Lemma summary_counts_split (rs : list ResultEntry) :
  Forall entryShape rs ->
  Forall (fun r => error r <> Some EmptyString) rs ->
  (List.length (filter countsAsSuccessful rs)
   + List.length (filter countsAsFailed rs) = List.length rs)%nat.
Proof.
  induction 1 as [| r rs Hr _ IH]; intros Hne; [reflexivity |].
  inversion Hne as [| ? ? Hr' Hrs']; subst. specialize (IH Hrs').
  assert (Hone : (countsAsSuccessful r = true /\ countsAsFailed r = false)
                 \/ (countsAsSuccessful r = false /\ countsAsFailed r = true)).
  { unfold countsAsSuccessful, countsAsFailed.
    destruct Hr as [(Ht & He) | (Hp & message & He)].
    - left. now rewrite Ht, He.
    - right. rewrite Hp, He. cbn [Js.truthy andb].
      destruct (String.eqb message "") eqn:Em; [| now split].
      apply String.eqb_eq in Em. subst message. contradiction. }
  cbn [filter].
  destruct Hone as [[-> ->] | [-> ->]]; cbn [List.length]; lia.
Qed.

(** C1, as stated, fails: when the session cannot be opened the summary
    is 0 successful and 1 failed out of 0. *)
Lemma summary_balance_fails_when_session_cannot_open :
  ~ (forall (Date_parse : string -> option Js.Date) (w : World)
            (config : ScrapeConfig) (st st' : State) (res : ExecutionResult),
        execute Date_parse w config st = (Normal res, st') ->
        total (summary res) = List.length (results res) /\
        (successful (summary res) + failed (summary res))%nat
        = total (summary res)).
Proof.
  intros H.
  pose (run := execute parseSlashDate sessionCannotOpen threeDaysTwoTypes initialState).
  assert (E : run = (Normal (mkResult false [] (mkSummary 0 0 1)), snd run))
    by (vm_compute; reflexivity).
  destruct (H _ _ _ _ _ _ E) as [_ Hsum]. discriminate Hsum.
Qed.

(** C1 (amended). When no recorded unit carries an empty error message,
    the summary of [execute] has [total] equal to the number of results
    and [successful + failed] equal to [total] on normal completion and
    to [total + 1] on every error path. *)
Theorem summary_balance :
  forall (Date_parse : string -> option Js.Date) (w : World)
         (config : ScrapeConfig) (st st' : State) (res : ExecutionResult),
    execute Date_parse w config st = (Normal res, st') ->
    Forall (fun r => error r <> Some EmptyString) (results res) ->
    total (summary res) = List.length (results res) /\
    (successful (summary res) + failed (summary res))%nat
    = (total (summary res) + (if success res then 0 else 1))%nat.
Proof.
  intros Date_parse w config st st' res E Hne.
  destruct (execute_run Date_parse w config st)
    as (rs & st1 & Hshape & [[E1 _] | [E1 _]]);
    rewrite E1 in E; injection E as <- _;
    cbn [results summary success total successful failed successResult failureResult] in *;
    (split; [reflexivity |]);
    pose proof (summary_counts_split rs Hshape Hne); lia.
Qed.

Lemma summary_balance_witness :
  exists (res : ExecutionResult) (st' : State),
    execute parseSlashDate siteWithRecords oneDayOneType initialState
    = (Normal res, st') /\
    total (summary res) = List.length (results res) /\
    (successful (summary res) + failed (summary res))%nat
    = (total (summary res) + (if success res then 0 else 1))%nat.
Proof.
  pose (run := execute parseSlashDate siteWithRecords oneDayOneType initialState).
  pose (res := match fst run with Normal r => r | Throw _ => successResult [] end).
  assert (E : run = (Normal res, snd run)) by (vm_compute; reflexivity).
  assert (Hne : Forall (fun r => error r <> Some EmptyString) (results res)).
  { vm_compute. constructor; [discriminate | constructor]. }
  exists res, (snd run). split; [exact E |].
  exact (summary_balance parseSlashDate siteWithRecords oneDayOneType
           initialState (snd run) res E Hne).
Defined.

Lemma generateDateRange_ascending (Date_parse : string -> option Js.Date)
    (startDate endDate : string) :
  exists (days : list Js.Date) (first : Z),
    generateDateRange Date_parse startDate endDate = map formatDate days /\
    map Js.valueOf days
    = map (fun i => first + Z.of_nat i) (seq 0 (List.length days)).
Proof.
  unfold generateDateRange.
  destruct (Date_parse startDate) as [start |]; [| now exists [], 0].
  destruct (Date_parse endDate) as [end_ |]; [| now exists [], 0].
  exists (daysFrom start (daysInclusive start end_)), (Js.valueOf start). split.
  - now rewrite (dateLoop_daysFrom (daysInclusive start end_)).
  - rewrite daysFrom_valueOf. f_equal. f_equal.
    generalize (daysInclusive start end_) as n. clear. intros n. revert start.
    induction n as [| n IH]; intros start; cbn; [reflexivity | now rewrite <- IH].
Qed.

(** C2. When [execute] returns [success: true] (the session opened and
    the run completed normally), [results] holds exactly one entry per
    (date, documentType) pair of the cross product, dates outermost and
    ascending, document types innermost in the order supplied, each
    entry carrying its unit's date and document type; so its length is
    the number of dates times the number of document types. *)
Theorem execute_results_cross_product :
  forall (Date_parse : string -> option Js.Date) (w : World)
         (config : ScrapeConfig) (st st' : State) (res : ExecutionResult),
    execute Date_parse w config st = (Normal res, st') ->
    success res = true ->
    let dates := generateDateRange Date_parse (startDate config) (endDate config) in
    map unitOf (results res) = list_prod dates (documentTypes config) /\
    List.length (results res)
    = (List.length dates * List.length (documentTypes config))%nat /\
    exists (days : list Js.Date) (first : Z),
      dates = map formatDate days /\
      map Js.valueOf days
      = map (fun i => first + Z.of_nat i) (seq 0 (List.length days)).
Proof.
  intros Date_parse w config st st' res E Hok dates.
  destruct (execute_run Date_parse w config st)
    as (rs & st1 & Hshape & [[E1 Hu] | [E1 _]]);
    rewrite E1 in E; injection E as <- _; [| discriminate Hok].
  cbn [results successResult]. unfold plannedUnits in Hu. fold dates in Hu.
  repeat split.
  - exact Hu.
  - rewrite <- (length_map unitOf), Hu. apply length_prod.
  - apply generateDateRange_ascending.
Qed.

Lemma execute_results_cross_product_witness :
  exists (res : ExecutionResult) (st' : State),
    execute parseSlashDate siteWithRecords threeDaysTwoTypes initialState
    = (Normal res, st') /\
    success res = true /\
    map unitOf (results res)
    = list_prod (generateDateRange parseSlashDate "01/01/2024" "01/03/2024")
                ["DEED"; "QUITCLAIM DEED"] /\
    List.length (results res) = 6%nat.
Proof.
  pose (run := execute parseSlashDate siteWithRecords threeDaysTwoTypes initialState).
  pose (res := match fst run with Normal r => r | Throw _ => failureResult [] end).
  assert (E : run = (Normal res, snd run)) by (vm_compute; reflexivity).
  assert (Hok : success res = true) by (vm_compute; reflexivity).
  exists res, (snd run). split; [exact E |]. split; [exact Hok |].
  destruct (execute_results_cross_product parseSlashDate siteWithRecords
              threeDaysTwoTypes initialState (snd run) res E Hok) as (Hu & Hlen & _).
  split; [exact Hu | exact Hlen].
Defined.

(** C4. If opening the session fails, [execute] returns
    [success: false], no results and the summary
    [{total: 0, successful: 0, failed: 1}], whatever the configuration
    planned. *)
Theorem execute_session_open_fails :
  forall (Date_parse : string -> option Js.Date) (w : World)
         (config : ScrapeConfig) (st : State) (e : Exn),
    respond w (List.length (trace st)) StagehandInit = Rejected e ->
    exists st',
      execute Date_parse w config st
      = (Normal (mkResult false [] (mkSummary 0 0 1)), st').
Proof.
  intros Date_parse w config st e Hinit.
  unfold execute. rewrite bind_run. cbn [setResults].
  unfold tryCatch, execute_try. rewrite bind_run.
  unfold call at 1. cbn [trace clockReads heap_results]. rewrite Hinit.
  destruct (execute_catch_run w e
              (mkState (trace st ++ [StagehandInit]) (clockReads st) []))
    as (st' & -> & _).
  now exists st'.
Qed.

Lemma execute_session_open_fails_witness :
  exists st',
    execute parseSlashDate sessionCannotOpen threeDaysTwoTypes initialState
    = (Normal (mkResult false [] (mkSummary 0 0 1)), st').
Proof.
  apply (execute_session_open_fails parseSlashDate sessionCannotOpen
           threeDaysTwoTypes initialState (ErrorObject "connection refused")).
  reflexivity.
Defined.



Definition isInit (c : Call) : bool :=
  match c with StagehandInit => true | _ => false end.

Definition hasError (r : ResultEntry) : bool :=
  match error r with Some _ => true | None => false end.

(** C3 (evaluation at a failing input). The first interaction of the
    only unit throws an [Error] with an empty message and the pause
    after the unit fails: the partial list holds that failed unit, yet
    the summary reports [failed: 1], not the failed unit plus one. *)
Theorem execute_abort_miscounts_empty_message :
  exists st',
    execute parseSlashDate emptyMessageThenAbort oneDayOneType initialState
    = (Normal (mkResult false
                 [mkEntry "03/05/2024" "QUITCLAIM DEED" None (Some EmptyString)]
                 (mkSummary 1 0 1)), st') /\
    List.length (filter hasError
                   [mkEntry "03/05/2024" "QUITCLAIM DEED" None (Some EmptyString)])
    = 1%nat /\
    closeAttempts st' = 1%nat.
Proof.
  eexists. split; [vm_compute; reflexivity |]. split; reflexivity.
Qed.

(** C6 (evaluation at a failing input). Every unit succeeds and the
    loop completes, then [stagehand.close()] rejects inside the [try]
    block: the [catch] block attempts the close a second time and the
    run is reported as failed. *)
Theorem execute_closes_twice_when_close_fails :
  exists res st',
    execute parseSlashDate closeFails oneDayOneType initialState
    = (Normal res, st') /\
    List.length (filter isInit (trace st')) = 1%nat /\
    closeAttempts st' = 2%nat /\
    success res = false /\
    List.length (results res) = 1%nat /\
    filter hasError (results res) = [] /\
    summary res = mkSummary 1 1 1.
Proof.
  eexists _, _. split; [vm_compute; reflexivity |]. repeat split.
Qed.

(** The error path in general: the partial list is a prefix of the
    planned units and [failed] is one more than the number of entries
    whose error message is truthy. *)
Lemma execute_error_path :
  forall (Date_parse : string -> option Js.Date) (w : World)
         (config : ScrapeConfig) (st st' : State) (res : ExecutionResult),
    execute Date_parse w config st = (Normal res, st') ->
    success res = false ->
    (exists rest,
        plannedUnits Date_parse config = map unitOf (results res) ++ rest) /\
    failed (summary res)
    = (List.length (filter countsAsFailed (results res)) + 1)%nat.
Proof.
  intros Date_parse w config st st' res E Hko.
  destruct (execute_run Date_parse w config st)
    as (rs & st1 & Hshape & [[E1 _] | [E1 Hpre]]);
    rewrite E1 in E; injection E as <- _; [discriminate Hko |].
  split; [exact Hpre | reflexivity].
Qed.

(** ** The export file name *)

Fixpoint allChars (p : ascii -> bool) (s : string) : bool :=
  match s with
  | EmptyString => true
  | String c rest => p c && allChars p rest
  end.

Definition notWhiteSpace (c : ascii) : bool := negb (isWhiteSpace c).

Definition notSlash (c : ascii) : bool := negb (Ascii.eqb c "/").

Definition startsWithWhiteSpace (s : string) : bool :=
  match s with
  | EmptyString => false
  | String c _ => isWhiteSpace c
  end.

Lemma replaceWhiteSpaceRuns_word (word rest : string) :
  allChars notWhiteSpace word = true ->
  replaceWhiteSpaceRuns (word ++ rest)%string
  = (word ++ replaceWhiteSpaceRuns rest)%string.
Proof.
  induction word as [| c word IH]; intros H; [reflexivity |].
  cbn [allChars] in H. apply andb_prop in H. destruct H as [Hc Hw].
  unfold notWhiteSpace in Hc. apply negb_true_iff in Hc.
  cbn [append replaceWhiteSpaceRuns]. rewrite Hc. now rewrite IH.
Qed.

Lemma replaceWhiteSpaceRuns_run (run rest : string) :
  run <> EmptyString ->
  allChars isWhiteSpace run = true ->
  startsWithWhiteSpace rest = false ->
  replaceWhiteSpaceRuns (run ++ rest)%string
  = ("-" ++ replaceWhiteSpaceRuns rest)%string.
Proof.
  intros Hne Hrun Hrest.
  induction run as [| c run IH]; [contradiction |].
  cbn [allChars] in Hrun. apply andb_prop in Hrun. destruct Hrun as [Hc Hr].
  cbn [append replaceWhiteSpaceRuns]. rewrite Hc.
  destruct run as [| c2 run'].
  - cbn [append]. destruct rest as [| c' rest']; [reflexivity |].
    cbn [startsWithWhiteSpace] in Hrest. now rewrite Hrest.
  - assert (Hc2 : isWhiteSpace c2 = true).
    { cbn [allChars] in Hr. now apply andb_prop in Hr. }
    cbn [append]. rewrite Hc2. apply IH; [discriminate | exact Hr].
Qed.

Lemma replaceSlashes_app (a b : string) :
  replaceSlashes (a ++ b)%string = (replaceSlashes a ++ replaceSlashes b)%string.
Proof. induction a as [| c a IH]; cbn; [reflexivity | now rewrite IH]. Qed.

Lemma replaceSlashes_none (s : string) :
  allChars notSlash s = true -> replaceSlashes s = s.
Proof.
  induction s as [| c s IH]; intros H; [reflexivity |].
  cbn [allChars] in H. apply andb_prop in H. destruct H as [Hc Hs].
  unfold notSlash in Hc. apply negb_true_iff in Hc.
  cbn [replaceSlashes]. now rewrite Hc, IH.
Qed.

(** C8. The export file name is the county, the document type with
    every run of white space turned into one hyphen and the date with
    every slash turned into a hyphen, joined by hyphens and followed by
    [.csv]; every archived unit is stored under that name; for
    03/05/2024, QUITCLAIM DEED and king it is
    [king-QUITCLAIM-DEED-03-05-2024.csv]. *)
Theorem exportFileName_spec :
  exportFileName "king" "QUITCLAIM DEED" "03/05/2024"
  = "king-QUITCLAIM-DEED-03-05-2024.csv"
  /\ (forall county documentType date,
        exportFileName county documentType date
        = (county ++ "-" ++ replaceWhiteSpaceRuns documentType ++ "-"
           ++ replaceSlashes date ++ ".csv")%string)
  /\ (forall word, allChars notWhiteSpace word = true ->
                   replaceWhiteSpaceRuns word = word)
  /\ (forall word run rest,
        allChars notWhiteSpace word = true ->
        run <> EmptyString ->
        allChars isWhiteSpace run = true ->
        startsWithWhiteSpace rest = false ->
        replaceWhiteSpaceRuns (word ++ run ++ rest)%string
        = (word ++ "-" ++ replaceWhiteSpaceRuns rest)%string)
  /\ (forall part, allChars notSlash part = true -> replaceSlashes part = part)
  /\ (forall part rest,
        replaceSlashes (part ++ "/" ++ rest)%string
        = (replaceSlashes part ++ "-" ++ replaceSlashes rest)%string)
  /\ (forall (w : World) (config : ScrapeConfig) (date documentType : string)
             (st st' : State) (outcome : ScrapeOutcome) (locator : string),
        scrapeSingleDay w config date documentType st = (Normal outcome, st') ->
        outcome_s3Path outcome = Some locator ->
        locator <> "no-records" ->
        exists folder,
          locator = ("s3://" ++ folder
                     ++ exportFileName (county config) documentType date)%string).
Proof.
  split; [reflexivity |]. split; [reflexivity |].
  split.
  { intros word. induction word as [| c word IH]; intros H; [reflexivity |].
    cbn [allChars] in H. apply andb_prop in H. destruct H as [Hc Hw].
    unfold notWhiteSpace in Hc. apply negb_true_iff in Hc.
    cbn [replaceWhiteSpaceRuns]. now rewrite Hc, IH. }
  split.
  { intros word run rest Hw Hne Hrun Hrest.
    rewrite replaceWhiteSpaceRuns_word by exact Hw.
    now rewrite replaceWhiteSpaceRuns_run. }
  split; [exact replaceSlashes_none |].
  split.
  { intros part rest. now rewrite !replaceSlashes_app. }
  intros w config date documentType st st' outcome locator E Hp Hne.
  unfold scrapeSingleDay, tryCatch in E.
  destruct (scrapeSingleDay_try w config date documentType st)
    as [[o | e] st1] eqn:Et.
  - injection E as <- _.
    destruct (post_scrapeSingleDay_try w config date documentType st o st1 Et)
      as [-> | [folder ->]]; cbn [outcome_s3Path noRecords] in Hp;
      injection Hp as <-; [contradiction | now exists folder].
  - injection E as <- _. discriminate Hp.
Qed.

Lemma exportFileName_spec_witness :
  exists folder,
    "s3://records/landmark-scraper/2024-03-05/1709640000001-king-QUITCLAIM-DEED-03-05-2024.csv"
    = ("s3://" ++ folder
       ++ exportFileName "king" "QUITCLAIM DEED" "03/05/2024")%string.
Proof.
  pose (run := scrapeSingleDay siteWithRecords oneDayOneType
                 "03/05/2024" "QUITCLAIM DEED" initialState).
  pose (outcome := mkOutcome true
     (Some "s3://records/landmark-scraper/2024-03-05/1709640000001-king-QUITCLAIM-DEED-03-05-2024.csv")
     None).
  assert (E : run = (Normal outcome, snd run)) by (vm_compute; reflexivity).
  refine (proj2 (proj2 (proj2 (proj2 (proj2 (proj2 exportFileName_spec)))))
            siteWithRecords oneDayOneType "03/05/2024" "QUITCLAIM DEED"
            initialState (snd run) outcome _ E eq_refl _).
  discriminate.
Defined.

(** ** The date range of the handler *)

(** [setDate] always lands on a well-formed date, however far the day
    lies outside the month. *)
Lemma normalizeDay_in_month (f : nat) (y m dt : Z) :
  0 <= m <= 11 -> 1 <= dt <= Js.monthLength y m ->
  Js.normalizeDay f y m dt = Js.mkDate y m dt.
Proof.
  intros Hm Hd. destruct f as [| f]; cbn [Js.normalizeDay]; [reflexivity |].
  destruct (dt <? 1) eqn:E1; [apply Z.ltb_lt in E1; lia |].
  rewrite daysInMonth_in_year by lia.
  destruct (Js.monthLength y m <? dt) eqn:E2; [apply Z.ltb_lt in E2; lia |].
  reflexivity.
Qed.

Lemma normalizeDay_valid_any (f : nat) :
  forall y m dt,
    0 <= m <= 11 -> Z.abs dt < Z.of_nat f ->
    Js.validDate (Js.normalizeDay f y m dt).
Proof.
  induction f as [| f IH]; intros y m dt Hm Hf; [lia |].
  cbn [Js.normalizeDay].
  destruct (dt <? 1) eqn:E1.
  - apply Z.ltb_lt in E1.
    set (y' := if m =? 0 then y - 1 else y).
    set (m' := if m =? 0 then 11 else m - 1).
    assert (Hm' : 0 <= m' <= 11) by (unfold m'; destruct (m =? 0) eqn:E; lia).
    rewrite (daysInMonth_in_year y' m') by exact Hm'.
    pose proof (monthLength_bounds y' m') as Hb.
    destruct (Z_lt_le_dec (dt + Js.monthLength y' m') 1) as [Hlow | Hin].
    + apply IH; [exact Hm' | lia].
    + rewrite normalizeDay_in_month by lia.
      unfold Js.validDate. cbn [Js.getFullYear Js.getMonth Js.getDate]. lia.
  - apply Z.ltb_ge in E1. rewrite (daysInMonth_in_year y m) by exact Hm.
    pose proof (monthLength_bounds y m) as Hb.
    destruct (Js.monthLength y m <? dt) eqn:E2.
    + apply Z.ltb_lt in E2. apply IH; [destruct (m =? 11) eqn:E; lia | lia].
    + apply Z.ltb_ge in E2.
      unfold Js.validDate. cbn [Js.getFullYear Js.getMonth Js.getDate]. lia.
Qed.

Lemma setDate_valid (d : Js.Date) (dt : Z) :
  0 <= Js.getMonth d <= 11 -> Js.validDate (Js.setDate d dt).
Proof.
  intros Hm. unfold Js.setDate. apply normalizeDay_valid_any; [exact Hm | lia].
Qed.

(** The range computed from [daysBack]: it ends today and starts
    [daysBack] days earlier. *)
Definition daysBackRange (w : World) (body : Body) (st : State) : string * string :=
  let end_ := localDate (clock w (clockReads st)) in
  let start := localDate (clock w (S (clockReads st))) in
  (formatDate (Js.setDate start
                 (Js.getDate start - daysBackOrDefault (body_daysBack body))),
   formatDate end_).

Definition afterTwoClockReads (st : State) : State :=
  mkState (trace st) (S (S (clockReads st))) (heap_results st).

Definition exactlyOneDate (startDate endDate : option string) : Prop :=
  (startDate = None /\ endDate <> None) \/ (startDate <> None /\ endDate = None).

Lemma handlerDateRange_cases (w : World) (body : Body) (st : State) :
  (exists startDate endDate,
      body_startDate body = Some startDate /\
      body_endDate body = Some endDate /\
      handlerDateRange w body st = (Normal (startDate, endDate), st))
  \/ handlerDateRange w body st
     = (Normal (daysBackRange w body st), afterTwoClockReads st).
Proof.
  unfold handlerDateRange.
  destruct (body_startDate body) as [s |], (body_endDate body) as [e |];
    cbn [Js.truthy andb];
    try (right; reflexivity).
  - destruct (negb (String.eqb s "") && negb (String.eqb e "")).
    + left. now exists s, e.
    + right. reflexivity.
  - right. rewrite andb_false_r. reflexivity.
Qed.

Definition responseOf (result : ExecutionResult) : Response :=
  if success result
  then mkResponse 200 (ScrapingCompleted (summary result) (results result))
  else mkResponse 500 (ScrapingFailed (summary result) (results result)).

(** C9. When exactly one of [startDate] and [endDate] is present the
    handler drops it without complaint: the range ends today and starts
    [daysBack] days earlier (30 when [daysBack] is absent), as if no
    date had been given, and that range is what the scraper runs on. An
    explicit range is only ever used when both dates are present. *)
Theorem handler_single_date_uses_daysBack :
  (forall (w : World) (body : Body) (st : State),
      exactlyOneDate (body_startDate body) (body_endDate body) ->
      let start := localDate (clock w (S (clockReads st))) in
      let daysBack := daysBackOrDefault (body_daysBack body) in
      handlerDateRange w body st
      = (Normal (formatDate (Js.setDate start (Js.getDate start - daysBack)),
                 formatDate (localDate (clock w (clockReads st)))),
         afterTwoClockReads st) /\
      Js.valueOf (Js.setDate start (Js.getDate start - daysBack))
      = Js.valueOf start - daysBack /\
      (Js.validDate start ->
       Js.validDate (Js.setDate start (Js.getDate start - daysBack))) /\
      handlerDateRange w body st
      = handlerDateRange w
          (mkBody None None (body_daysBack body)
             (body_documentTypes body) (body_county body)) st)
  /\ daysBackOrDefault None = 30
  /\ (forall (w : World) (body : Body) (st : State),
        (exists startDate endDate,
            body_startDate body = Some startDate /\
            body_endDate body = Some endDate /\
            handlerDateRange w body st = (Normal (startDate, endDate), st))
        \/ handlerDateRange w body st
           = (Normal (daysBackRange w body st), afterTwoClockReads st))
  /\ (forall (Date_parse : string -> option Js.Date) (w : World)
             (req : Request) (raw : RawBody) (parsed : Body) (st : State),
        method req = "POST" ->
        body req = Some raw ->
        RequestSchema_parse raw = Some parsed ->
        exactlyOneDate (raw_startDate raw) (raw_endDate raw) ->
        let range := daysBackRange w parsed st in
        exists result st',
          execute Date_parse w
            (mkConfig (fst range) (snd range)
               (body_documentTypes parsed) (body_county parsed))
            (afterTwoClockReads st)
          = (Normal result, st') /\
          handler Date_parse w req st = (Normal (responseOf result), st')).
Proof.
  assert (Hone : forall (w : World) (body : Body) (st : State),
            exactlyOneDate (body_startDate body) (body_endDate body) ->
            handlerDateRange w body st
            = (Normal (daysBackRange w body st), afterTwoClockReads st)).
  { intros w body st Hx. unfold handlerDateRange.
    destruct Hx as [[-> _] | [_ ->]]; cbn [Js.truthy andb].
    - reflexivity.
    - rewrite andb_false_r. reflexivity. }
  split.
  { intros w body st Hx start daysBack. split; [exact (Hone w body st Hx) |].
    split; [rewrite valueOf_setDate; lia |].
    split; [intros [Hm _]; apply setDate_valid, Hm |].
    rewrite (Hone w body st Hx). reflexivity. }
  split; [reflexivity |].
  split; [exact handlerDateRange_cases |].
  intros Date_parse w req raw parsed st Hpost Hbody Hparse Hx range.
  assert (Hx' : exactlyOneDate (body_startDate parsed) (body_endDate parsed)).
  { unfold RequestSchema_parse in Hparse.
    destruct (match raw_daysBack raw with
              | Some n => (1 <=? n) && (n <=? 365)
              | None => true
              end); [| discriminate].
    injection Hparse as <-. exact Hx. }
  assert (Hm : negb (String.eqb (method req) "POST") = false)
    by (rewrite Hpost; reflexivity).
  destruct (execute_run Date_parse w
              (mkConfig (fst range) (snd range)
                 (body_documentTypes parsed) (body_county parsed))
              (afterTwoClockReads st))
    as (rs & st' & _ & [[E _] | [E _]]).
  - exists (successResult rs), st'. split; [exact E |].
    unfold handler. rewrite Hm, Hbody, Hparse.
    unfold tryCatch. rewrite bind_run, (Hone w parsed st Hx'), bind_run.
    fold range. rewrite E. reflexivity.
  - exists (failureResult rs), st'. split; [exact E |].
    unfold handler. rewrite Hm, Hbody, Hparse.
    unfold tryCatch. rewrite bind_run, (Hone w parsed st Hx'), bind_run.
    fold range. rewrite E. reflexivity.
Qed.

Lemma handler_single_date_uses_daysBack_witness :
  handlerDateRange siteWithRecords
    (mkBody (Some "01/01/2024") None (Some 7) ["DEED"] "king") initialState
  = (Normal ("02/27/2024", "03/05/2024"), afterTwoClockReads initialState).
Proof.
  refine (proj1 (proj1 handler_single_date_uses_daysBack siteWithRecords
                   (mkBody (Some "01/01/2024") None (Some 7) ["DEED"] "king")
                   initialState _)).
  right. split; [discriminate | reflexivity].
Defined.

(** ** An inverted range *)

Lemma generateDateRange_inverted (Date_parse : string -> option Js.Date)
    (startDate endDate : string) (start end_ : Js.Date) :
  Date_parse startDate = Some start ->
  Date_parse endDate = Some end_ ->
  Js.valueOf end_ < Js.valueOf start ->
  generateDateRange Date_parse startDate endDate = [].
Proof.
  intros Hs He Hlt. unfold generateDateRange. rewrite Hs, He, dateLoop_step.
  destruct (Js.valueOf start <=? Js.valueOf end_) eqn:E; [| reflexivity].
  apply Z.leb_le in E. lia.
Qed.

(** C10, as stated, fails: the session opens, the range is inverted,
    but the initial navigation times out and the run is reported as
    failed. *)
Lemma inverted_range_fails_when_navigation_fails :
  ~ (forall (Date_parse : string -> option Js.Date) (w : World)
            (config : ScrapeConfig) (st : State) (start end_ : Js.Date)
            (opened : Val),
        Date_parse (startDate config) = Some start ->
        Date_parse (endDate config) = Some end_ ->
        Js.valueOf end_ < Js.valueOf start ->
        respond w (List.length (trace st)) StagehandInit = Resolved opened ->
        generateDateRange Date_parse (startDate config) (endDate config) = [] /\
        exists st',
          execute Date_parse w config st
          = (Normal (mkResult true [] (mkSummary 0 0 0)), st')).
Proof.
  intros H.
  destruct (H parseSlashDate navigationFails invertedRange initialState
              (Js.mkDate 2024 0 3) (Js.mkDate 2024 0 1) VUndefined
              eq_refl eq_refl eq_refl eq_refl) as (_ & st' & E).
  vm_compute in E. discriminate E.
Qed.

(** C10 (amended). If the start date parses to a day strictly after the
    end date, [generateDateRange] returns the empty list, so [execute],
    when the session opens, the initial navigation and its settle wait
    succeed and the session closes without error, returns
    [success: true], no results and the summary
    [{total: 0, successful: 0, failed: 0}]. *)
Theorem inverted_range_is_not_an_error :
  forall (Date_parse : string -> option Js.Date) (w : World)
         (config : ScrapeConfig) (st : State) (start end_ : Js.Date)
         (opened navigated settled closed : Val),
    Date_parse (startDate config) = Some start ->
    Date_parse (endDate config) = Some end_ ->
    Js.valueOf end_ < Js.valueOf start ->
    respond w (List.length (trace st)) StagehandInit = Resolved opened ->
    respond w (List.length (trace st) + 1) (PageGoto landmarkUrl 60000)
    = Resolved navigated ->
    respond w (List.length (trace st) + 2) (PageWaitForTimeout 3000)
    = Resolved settled ->
    respond w (List.length (trace st) + 3) StagehandClose = Resolved closed ->
    generateDateRange Date_parse (startDate config) (endDate config) = [] /\
    exists st',
      execute Date_parse w config st
      = (Normal (mkResult true [] (mkSummary 0 0 0)), st').
Proof.
  intros Date_parse w config st start end_ opened navigated settled closed
         Hs He Hlt Hinit Hgoto Hwait Hclose.
  pose proof (generateDateRange_inverted Date_parse _ _ start end_ Hs He Hlt)
    as Hempty.
  split; [exact Hempty |].
  unfold execute. rewrite bind_run. cbn [setResults].
  unfold tryCatch, execute_try. rewrite Hempty.
  rewrite bind_run. unfold call at 1.
  cbn [trace clockReads heap_results]. rewrite Hinit.
  rewrite bind_run. unfold call at 1.
  cbn [trace clockReads heap_results].
  rewrite length_app. cbn [List.length]. rewrite Hgoto.
  rewrite bind_run. unfold call at 1.
  cbn [trace clockReads heap_results].
  rewrite !length_app. cbn [List.length].
  replace (List.length (trace st) + 1 + 1)%nat
    with (List.length (trace st) + 2)%nat by lia.
  rewrite Hwait.
  rewrite bind_run. cbn [forOf ret].
  rewrite bind_run. cbn [getResults heap_results].
  rewrite bind_run. unfold call at 1.
  cbn [trace clockReads heap_results].
  rewrite !length_app. cbn [List.length].
  replace (List.length (trace st) + 1 + 1 + 1)%nat
    with (List.length (trace st) + 3)%nat by lia.
  rewrite Hclose. eexists. reflexivity.
Qed.

Lemma inverted_range_is_not_an_error_witness :
  generateDateRange parseSlashDate "01/03/2024" "01/01/2024" = [] /\
  exists st',
    execute parseSlashDate siteWithRecords invertedRange initialState
    = (Normal (mkResult true [] (mkSummary 0 0 0)), st').
Proof.
  apply (inverted_range_is_not_an_error parseSlashDate siteWithRecords
           invertedRange initialState (Js.mkDate 2024 0 3) (Js.mkDate 2024 0 1)
           VUndefined VUndefined VUndefined VUndefined);
    reflexivity.
Defined.

(** ** Closing the session *)

Section CloseFacts.

Variable Date_parse : string -> option Js.Date.
Variable w : World.
Variable config : ScrapeConfig.

Lemma quiet_uploadFile buffer fileName : quiet (uploadFile w buffer fileName).
Proof. unfold uploadFile. preserves_auto. Qed.

Lemma quiet_fillDateField selector value : quiet (fillDateField w selector value).
Proof. unfold fillDateField. preserves_auto. Qed.

Lemma quiet_scrapeSingleDay date documentType :
  quiet (scrapeSingleDay w config date documentType).
Proof.
  unfold scrapeSingleDay, scrapeSingleDay_try.
  repeat first [apply quiet_uploadFile | apply quiet_fillDateField | preserves_step].
Qed.

Lemma quiet_units :
  quiet
    (forOf (generateDateRange Date_parse (startDate config) (endDate config))
       (fun date =>
          forOf (documentTypes config) (fun documentType =>
            result <- scrapeSingleDay w config date documentType ;;
            pushResult (mkEntry date documentType
                          (outcome_s3Path result) (outcome_error result)) ;;
            call w (PageWaitForTimeout 2000) ;;
            ret tt))).
Proof.
  apply preserves_forOf. intros date. apply preserves_forOf. intros documentType.
  repeat first [apply quiet_scrapeSingleDay | preserves_step].
Qed.

Lemma closeAttempts_catch (e : Exn) (st : State) :
  closeAttempts (snd (execute_catch w e st)) = (closeAttempts st + 1)%nat.
Proof.
  destruct (execute_catch_run w e st) as (st' & -> & Ht). cbn [snd].
  unfold closeAttempts. rewrite Ht, filter_app, length_app. reflexivity.
Qed.

(** X18. Every run of [execute] attempts the close once, or twice; twice
    only on the error path, and never when [success] is true. *)
Lemma execute_close_attempts (st : State) :
  exists res st',
    execute Date_parse w config st = (Normal res, st') /\
    ((closeAttempts st' = closeAttempts st + 1)%nat
     \/ (success res = false /\ (closeAttempts st' = closeAttempts st + 2)%nat)).
Proof.
  unfold execute. rewrite bind_run. cbn [setResults].
  set (st0 := mkState (trace st) (clockReads st) []).
  assert (H0 : closeAttempts st0 = closeAttempts st) by reflexivity.
  unfold tryCatch, execute_try.
  assert (Hearly : forall e st1, closeAttempts st1 = closeAttempts st ->
            exists res st',
              execute_catch w e st1 = (Normal res, st') /\
              ((closeAttempts st' = closeAttempts st + 1)%nat
               \/ (success res = false
                   /\ (closeAttempts st' = closeAttempts st + 2)%nat))).
  { intros e st1 Hq. pose proof (closeAttempts_catch e st1) as Hc.
    destruct (execute_catch_run w e st1) as (st' & Hrun & _).
    rewrite Hrun in Hc |- *. cbn [snd] in Hc.
    eexists _, st'. split; [reflexivity |]. left. lia. }
  rewrite bind_run.
  pose proof (quiet_call w StagehandInit eq_refl st0) as Q1.
  destruct (call w StagehandInit st0) as [[v1 | e1] st1]; cbn [snd] in Q1;
    [| apply Hearly; lia].
  rewrite bind_run.
  pose proof (quiet_call w (PageGoto landmarkUrl 60000) eq_refl st1) as Q2.
  destruct (call w (PageGoto _ _) st1) as [[v2 | e2] st2]; cbn [snd] in Q2;
    [| apply Hearly; lia].
  rewrite bind_run.
  pose proof (quiet_call w (PageWaitForTimeout 3000) eq_refl st2) as Q3.
  destruct (call w (PageWaitForTimeout 3000) st2) as [[v3 | e3] st3]; cbn [snd] in Q3;
    [| apply Hearly; lia].
  rewrite bind_run.
  pose proof (quiet_units st3) as Q4.
  destruct (forOf _ _ st3) as [[u | e4] st4]; cbn [snd] in Q4;
    [| apply Hearly; lia].
  rewrite bind_run. cbn [getResults]. rewrite bind_run.
  pose proof (closeAttempts_call w StagehandClose st4) as Q5. cbn [isClose] in Q5.
  destruct (call w StagehandClose st4) as [[v5 | e5] st5]; cbn [snd] in Q5.
  - eexists _, st5. split; [reflexivity |]. left. lia.
  - pose proof (closeAttempts_catch e5 st5) as Hc.
    destruct (execute_catch_run w e5 st5) as (st' & Hrun & _).
    rewrite Hrun in Hc |- *. cbn [snd] in Hc.
    eexists _, st'. split; [reflexivity |]. right. split; [reflexivity | lia].
Qed.

End CloseFacts.

(** * Further properties of the orchestration *)

(** X1. [execute] never throws: whatever the collaborators do it
    returns a result whose entries are, in order, the planned units or
    a prefix of them, all of them when [success] is true, with [total]
    the number of entries. *)
Theorem execute_returns_planned_prefix :
  forall (Date_parse : string -> option Js.Date) (w : World)
         (config : ScrapeConfig) (st : State),
  exists (res : ExecutionResult) (st' : State) (rest : list (string * string)),
    execute Date_parse w config st = (Normal res, st') /\
    plannedUnits Date_parse config = map unitOf (results res) ++ rest /\
    (success res = true -> rest = []) /\
    total (summary res) = List.length (results res).
Proof.
  intros Date_parse w config st.
  destruct (execute_run Date_parse w config st)
    as (rs & st' & _ & [[E Hu] | [E [rest Hu]]]).
  - exists (successResult rs), st', []. rewrite app_nil_r. now repeat split.
  - exists (failureResult rs), st', rest. repeat split; try assumption.
    discriminate.
Qed.

(** X2. When the start date or the end date is not a date, or no
    document type is given, [execute] scrapes nothing: no entry is
    recorded on any path, and nothing counts as successful. *)
Theorem execute_empty_plan :
  forall (Date_parse : string -> option Js.Date) (w : World)
         (config : ScrapeConfig) (st : State),
    Date_parse (startDate config) = None \/
    Date_parse (endDate config) = None \/
    documentTypes config = [] ->
    exists (res : ExecutionResult) (st' : State),
      execute Date_parse w config st = (Normal res, st') /\
      results res = [] /\
      summary res = mkSummary 0 0 (if success res then 0 else 1).
Proof.
  intros Date_parse w config st Hempty.
  assert (Hplan : plannedUnits Date_parse config = []).
  { unfold plannedUnits, generateDateRange.
    destruct Hempty as [-> | [-> | ->]]; [reflexivity | |].
    - now destruct (Date_parse (startDate config)).
    - apply length_zero_iff_nil. rewrite length_prod. cbn. lia. }
  destruct (execute_run Date_parse w config st)
    as (rs & st' & _ & [[E Hu] | [E [rest Hu]]]); rewrite Hplan in Hu.
  - apply map_eq_nil in Hu. subst rs.
    exists (successResult []), st'. now repeat split.
  - symmetry in Hu. apply app_eq_nil in Hu. destruct Hu as [Hu _].
    apply map_eq_nil in Hu. subst rs.
    exists (failureResult []), st'. now repeat split.
Qed.

Definition notADateRange : ScrapeConfig :=
  mkConfig "yesterday" "01/03/2024" ["DEED"] "king".

Lemma execute_empty_plan_witness :
  exists (res : ExecutionResult) (st' : State),
    execute parseSlashDate siteWithRecords notADateRange initialState
    = (Normal res, st') /\
    results res = [] /\
    summary res = mkSummary 0 0 (if success res then 0 else 1).
Proof.
  apply (execute_empty_plan parseSlashDate siteWithRecords notADateRange
           initialState).
  left. reflexivity.
Defined.

(** X3. In the summary of every run, [successful] is the number of
    entries that carry no error (archived and no-records units alike),
    every such entry has a non-empty locator, and every other entry has
    an error and no locator; [failed] never exceeds the number of
    entries with an error, plus one on the error path. *)
Theorem summary_successful_is_entries_without_error :
  forall (Date_parse : string -> option Js.Date) (w : World)
         (config : ScrapeConfig) (st : State),
  exists (res : ExecutionResult) (st' : State),
    execute Date_parse w config st = (Normal res, st') /\
    successful (summary res)
    = List.length (filter (fun r => negb (hasError r)) (results res)) /\
    Forall (fun r => if hasError r then s3Path r = None
                     else Js.truthy (s3Path r) = true) (results res) /\
    (failed (summary res)
     <= List.length (filter hasError (results res))
        + (if success res then 0 else 1))%nat.
Proof.
  intros Date_parse w config st.
  assert (Hcount : forall rs, Forall entryShape rs ->
            List.length (filter countsAsSuccessful rs)
            = List.length (filter (fun r => negb (hasError r)) rs) /\
            Forall (fun r => if hasError r then s3Path r = None
                             else Js.truthy (s3Path r) = true) rs /\
            (List.length (filter countsAsFailed rs)
             <= List.length (filter hasError rs))%nat).
  { induction 1 as [| r rs Hr _ (IH1 & IH2 & IH3)];
      [repeat split; constructor |].
    cbn [filter]. unfold countsAsSuccessful, countsAsFailed, hasError in *.
    destruct Hr as [(Ht & He) | (Hp & message & He)].
    - rewrite Ht, He. cbn [Js.truthy andb negb List.length].
      repeat split; [now rewrite IH1 | constructor; [now rewrite He | exact IH2]
                    | exact IH3].
    - rewrite Hp, He. cbn [Js.truthy andb negb].
      repeat split; [exact IH1 | constructor; [now rewrite He | exact IH2] |].
      destruct (negb (String.eqb message "")); cbn [List.length]; lia. }
  destruct (execute_run Date_parse w config st)
    as (rs & st' & Hshape & [[E _] | [E _]]);
    destruct (Hcount rs Hshape) as (H1 & H2 & H3).
  - exists (successResult rs), st'. repeat split; try assumption.
    cbn [failed summary successResult results success]. lia.
  - exists (failureResult rs), st'. repeat split; try assumption.
    cbn [failed summary failureResult results success]. lia.
Qed.

(** X4. If the session cannot be opened, the only calls [execute] makes
    are the failed [init] and one [close]: it never navigates and never
    touches the page. *)
Theorem execute_session_open_fails_calls :
  forall (Date_parse : string -> option Js.Date) (w : World)
         (config : ScrapeConfig) (st : State) (e : Exn),
    respond w (List.length (trace st)) StagehandInit = Rejected e ->
    trace (snd (execute Date_parse w config st))
    = trace st ++ [StagehandInit; StagehandClose] /\
    clockReads (snd (execute Date_parse w config st)) = clockReads st.
Proof.
  intros Date_parse w config st e Hinit.
  assert (E : exists res,
             execute Date_parse w config st
             = (Normal res,
                mkState ((trace st ++ [StagehandInit]) ++ [StagehandClose])
                  (clockReads st) [])).
  { unfold execute. rewrite bind_run. cbn [setResults].
    unfold tryCatch, execute_try. rewrite bind_run.
    unfold call at 1. cbn [trace clockReads heap_results]. rewrite Hinit.
    unfold execute_catch. rewrite bind_run. unfold tryCatch. rewrite bind_run.
    unfold call. cbn [trace clockReads heap_results].
    destruct (respond w _ StagehandClose); eexists; reflexivity. }
  destruct E as [res ->]. cbn [snd trace clockReads].
  split; [now rewrite <- app_assoc | reflexivity].
Qed.

Lemma execute_session_open_fails_calls_witness :
  trace (snd (execute parseSlashDate sessionCannotOpen threeDaysTwoTypes
                initialState))
  = trace initialState ++ [StagehandInit; StagehandClose] /\
  clockReads (snd (execute parseSlashDate sessionCannotOpen threeDaysTwoTypes
                     initialState))
  = clockReads initialState.
Proof.
  apply (execute_session_open_fails_calls parseSlashDate sessionCannotOpen
           threeDaysTwoTypes initialState (ErrorObject "connection refused")).
  reflexivity.
Defined.

(** ** The handler *)

Definition rawBodyOf (req : Request) : RawBody :=
  match body req with Some raw => raw | None => emptyBody end.

(** A valid POST request is answered with what [execute] returns on the
    configuration built from the parsed body. *)
Lemma handler_valid_post (Date_parse : string -> option Js.Date) (w : World)
    (req : Request) (parsed : Body) (range : string * string) (st st1 : State) :
  method req = "POST" ->
  RequestSchema_parse (rawBodyOf req) = Some parsed ->
  handlerDateRange w parsed st = (Normal range, st1) ->
  exists result st',
    execute Date_parse w
      (mkConfig (fst range) (snd range)
         (body_documentTypes parsed) (body_county parsed)) st1
    = (Normal result, st') /\
    handler Date_parse w req st = (Normal (responseOf result), st').
Proof.
  intros Hpost Hparse Hrange.
  assert (Hm : negb (String.eqb (method req) "POST") = false)
    by (rewrite Hpost; reflexivity).
  unfold rawBodyOf in Hparse.
  destruct (execute_run Date_parse w
              (mkConfig (fst range) (snd range)
                 (body_documentTypes parsed) (body_county parsed)) st1)
    as (rs & st' & _ & [[E _] | [E _]]).
  - exists (successResult rs), st'. split; [exact E |].
    unfold handler. rewrite Hm, Hparse. unfold tryCatch.
    rewrite bind_run, Hrange, bind_run, E. reflexivity.
  - exists (failureResult rs), st'. split; [exact E |].
    unfold handler. rewrite Hm, Hparse. unfold tryCatch.
    rewrite bind_run, Hrange, bind_run, E. reflexivity.
Qed.

Lemma RequestSchema_parse_rejects (raw : RawBody) :
  RequestSchema_parse raw = None <->
  exists n, raw_daysBack raw = Some n /\ (n < 1 \/ 365 < n).
Proof.
  unfold RequestSchema_parse. destruct (raw_daysBack raw) as [n |].
  - destruct ((1 <=? n) && (n <=? 365)) eqn:E.
    + apply andb_prop in E. destruct E as [E1 E2].
      apply Z.leb_le in E1, E2. split; [discriminate |].
      intros (n' & Hn & Hr). injection Hn as <-. lia.
    + split; [| reflexivity]. intros _. exists n. split; [reflexivity |].
      apply andb_false_iff in E. rewrite !Z.leb_gt in E. lia.
  - split; [discriminate | intros (n & Hn & _); discriminate].
Qed.

(** X5. The handler always answers.  A request that is not a POST gets
    405, a POST whose [daysBack] lies outside 1..365 gets 400, and in
    both cases no session is opened, no call is made and the clock is
    not read; every other POST gets 200 or 500 according to the
    [success] flag of [execute] on the configuration built from the
    body, with its summary and results. *)
Theorem handler_always_answers :
  forall (Date_parse : string -> option Js.Date) (w : World)
         (req : Request) (st : State),
  exists (resp : Response) (st' : State),
    handler Date_parse w req st = (Normal resp, st') /\
    (method req <> "POST" ->
     resp = mkResponse 405 MethodNotAllowed /\ st' = st) /\
    (method req = "POST" ->
     (exists n, raw_daysBack (rawBodyOf req) = Some n /\ (n < 1 \/ 365 < n)) ->
     resp = mkResponse 400 InvalidRequestParameters /\ st' = st) /\
    (method req = "POST" ->
     forall parsed, RequestSchema_parse (rawBodyOf req) = Some parsed ->
     exists range st1 result,
       handlerDateRange w parsed st = (Normal range, st1) /\
       execute Date_parse w
         (mkConfig (fst range) (snd range)
            (body_documentTypes parsed) (body_county parsed)) st1
       = (Normal result, st') /\
       resp = responseOf result /\
       status resp = (if success result then 200 else 500)).
Proof.
  intros Date_parse w req st.
  destruct (String.eqb (method req) "POST") eqn:Em.
  - apply String.eqb_eq in Em.
    destruct (RequestSchema_parse (rawBodyOf req)) as [parsed |] eqn:Hparse.
    + assert (Hrange : exists range st1,
                handlerDateRange w parsed st = (Normal range, st1)).
      { destruct (handlerDateRange_cases w parsed st)
          as [(s & e & _ & _ & H) | H]; rewrite H; now eexists _, _. }
      destruct Hrange as (range & st1 & Hrange).
      destruct (handler_valid_post Date_parse w req parsed range st st1
                  Em Hparse Hrange) as (result & st' & E & Hh).
      exists (responseOf result), st'. split; [exact Hh |].
      split; [intros Hne; contradiction |].
      split.
      * intros _ Hbad. apply RequestSchema_parse_rejects in Hbad.
        rewrite Hbad in Hparse. discriminate.
      * intros _ parsed' Hp. injection Hp as <-.
        exists range, st1, result. repeat split; try assumption.
        unfold responseOf. now destruct (success result).
    + exists (mkResponse 400 InvalidRequestParameters), st.
      split.
      { unfold handler. rewrite Em. cbn [negb]. unfold tryCatch.
        unfold rawBodyOf in Hparse. rewrite Hparse. reflexivity. }
      split; [intros Hne; contradiction |].
      split; [now split | intros _ parsed Hp; discriminate].
  - exists (mkResponse 405 MethodNotAllowed), st.
    split; [unfold handler; rewrite Em; reflexivity |].
    apply String.eqb_neq in Em.
    split; [now split |]. split; intros Hp; contradiction.
Qed.

Lemma handler_always_answers_witness :
  handler parseSlashDate siteWithRecords
    (mkRequest "POST" (Some (mkRawBody None None (Some 400) None None)))
    initialState
  = (Normal (mkResponse 400 InvalidRequestParameters), initialState).
Proof.
  destruct (handler_always_answers parseSlashDate siteWithRecords
              (mkRequest "POST" (Some (mkRawBody None None (Some 400) None None)))
              initialState) as (resp & st' & E & _ & Hbad & _).
  destruct (Hbad eq_refl) as [-> ->]; [| exact E].
  exists 400. split; [reflexivity | lia].
Defined.

(** X6. When both dates are present and non-empty they are handed to
    the scraper as they are, whatever [daysBack] says, and the scraper
    starts in the state the handler was called in: the clock is not
    read to compute the range. *)
Theorem handler_explicit_range_verbatim :
  forall (Date_parse : string -> option Js.Date) (w : World)
         (req : Request) (parsed : Body) (st : State) (startDate endDate : string),
    method req = "POST" ->
    RequestSchema_parse (rawBodyOf req) = Some parsed ->
    raw_startDate (rawBodyOf req) = Some startDate ->
    raw_endDate (rawBodyOf req) = Some endDate ->
    startDate <> EmptyString ->
    endDate <> EmptyString ->
    exists result st',
      execute Date_parse w
        (mkConfig startDate endDate
           (body_documentTypes parsed) (body_county parsed)) st
      = (Normal result, st') /\
      handler Date_parse w req st = (Normal (responseOf result), st').
Proof.
  intros Date_parse w req parsed st startDate endDate
         Hpost Hparse Hs He Hns Hne.
  assert (Hrange : handlerDateRange w parsed st
                   = (Normal (startDate, endDate), st)).
  { unfold RequestSchema_parse in Hparse.
    destruct (match raw_daysBack (rawBodyOf req) with
              | Some n => (1 <=? n) && (n <=? 365)
              | None => true
              end); [| discriminate].
    injection Hparse as <-. unfold handlerDateRange.
    cbn [body_startDate body_endDate]. rewrite Hs, He. cbn [Js.truthy].
    apply String.eqb_neq in Hns, Hne. rewrite Hns, Hne. reflexivity. }
  destruct (handler_valid_post Date_parse w req parsed _ st st
              Hpost Hparse Hrange) as (result & st' & E & Hh).
  exists result, st'. split; [exact E | exact Hh].
Qed.

Lemma handler_explicit_range_verbatim_witness :
  exists result st',
    execute parseSlashDate siteWithRecords
      (mkConfig "01/01/2024" "01/03/2024" ["DEED"] "king") initialState
    = (Normal result, st') /\
    handler parseSlashDate siteWithRecords
      (mkRequest "POST"
         (Some (mkRawBody (Some "01/01/2024") (Some "01/03/2024") (Some 7)
                  None None)))
      initialState
    = (Normal (responseOf result), st').
Proof.
  apply (handler_explicit_range_verbatim parseSlashDate siteWithRecords
           (mkRequest "POST"
              (Some (mkRawBody (Some "01/01/2024") (Some "01/03/2024") (Some 7)
                       None None)))
           (mkBody (Some "01/01/2024") (Some "01/03/2024") (Some 7) ["DEED"] "king")
           initialState "01/01/2024" "01/03/2024");
    try reflexivity; discriminate.
Defined.

(** X7. A POST without a body runs the scraper for document type DEED
    in county king over the 30 days before today and today. *)
Theorem handler_defaults :
  forall (Date_parse : string -> option Js.Date) (w : World)
         (req : Request) (st : State),
    method req = "POST" ->
    body req = None ->
    let today := localDate (clock w (clockReads st)) in
    let start := localDate (clock w (S (clockReads st))) in
    let start := Js.setDate start (Js.getDate start - 30) in
    exists result st',
      execute Date_parse w
        (mkConfig (formatDate start) (formatDate today) ["DEED"] "king")
        (afterTwoClockReads st)
      = (Normal result, st') /\
      handler Date_parse w req st = (Normal (responseOf result), st').
Proof.
  intros Date_parse w req st Hpost Hbody today start start'.
  apply (handler_valid_post Date_parse w req
           (mkBody None None None ["DEED"] "king")
           (formatDate start', formatDate today) st (afterTwoClockReads st) Hpost).
  - unfold rawBodyOf. rewrite Hbody. reflexivity.
  - reflexivity.
Qed.

Lemma handler_defaults_witness :
  exists result st',
    execute parseSlashDate siteWithRecords
      (mkConfig "02/04/2024" "03/05/2024" ["DEED"] "king")
      (afterTwoClockReads initialState)
    = (Normal result, st') /\
    handler parseSlashDate siteWithRecords (mkRequest "POST" None) initialState
    = (Normal (responseOf result), st').
Proof.
  apply (handler_defaults parseSlashDate siteWithRecords
           (mkRequest "POST" None) initialState); reflexivity.
Defined.

(** ** Dates written by the handler and read back by the scraper *)

Lemma digitsValue_of_uint_acc (u : Decimal.uint) :
  forall acc : positive,
    digitsValue (Z.pos acc) (NilEmpty.string_of_uint u)
    = Some (Z.pos (Pos.of_uint_acc u acc)).
Proof.
  induction u; intros acc; cbn [NilEmpty.string_of_uint digitsValue Pos.of_uint_acc];
    [reflexivity | ..];
    match goal with
    | |- context [isDigit ?c] =>
        change (isDigit c) with true; cbv iota;
        let v := eval vm_compute in (Z.of_N (N_of_ascii c) - 48) in
        change (Z.of_N (N_of_ascii c) - 48) with v
    end;
    rewrite <- IHu; f_equal; lia.
Qed.

Lemma digitsValue_of_uint (u : Decimal.uint) :
  digitsValue 0 (NilEmpty.string_of_uint u) = Some (Z.of_N (Pos.of_uint u)).
Proof.
  induction u; cbn [NilEmpty.string_of_uint digitsValue Pos.of_uint];
    [reflexivity | ..];
    match goal with
    | |- context [isDigit ?c] =>
        change (isDigit c) with true; cbv iota;
        let v := eval vm_compute in (10 * 0 + (Z.of_N (N_of_ascii c) - 48)) in
        change (10 * 0 + (Z.of_N (N_of_ascii c) - 48)) with v
    end;
    [exact IHu | apply digitsValue_of_uint_acc ..].
Qed.

Lemma allDigits_of_uint (u : Decimal.uint) :
  allChars isDigit (NilEmpty.string_of_uint u) = true.
Proof. induction u; cbn [NilEmpty.string_of_uint allChars]; auto. Qed.

(** Printing a natural number and reading the digits back. *)
Lemma parseDigits_toString (n : Z) :
  0 <= n ->
  parseDigits (Js.toString n) = Some n /\
  allChars isDigit (Js.toString n) = true /\
  Js.toString n <> EmptyString.
Proof.
  intros Hn. unfold Js.toString. destruct n as [| p | p]; [| | lia].
  - repeat split. discriminate.
  - cbn [Z.to_int NilZero.string_of_int].
    pose proof (DecimalPos.Unsigned.to_uint_nonnil p) as Hnil.
    pose proof (DecimalPos.Unsigned.of_to p) as Hof.
    pose proof (digitsValue_of_uint (Pos.to_uint p)) as Hd.
    pose proof (allDigits_of_uint (Pos.to_uint p)) as Ha.
    destruct (Pos.to_uint p) as [| u | u | u | u | u | u | u | u | u | u] eqn:Eu;
      [contradiction | ..];
      (repeat split;
       [ unfold parseDigits, NilZero.string_of_uint;
         cbn [NilEmpty.string_of_uint] in *; rewrite Hd, Hof; reflexivity
       | exact Ha
       | discriminate ]).
Qed.

Lemma allChars_impl (p q : ascii -> bool) (s : string) :
  (forall c, p c = true -> q c = true) ->
  allChars p s = true -> allChars q s = true.
Proof.
  intros Hpq. induction s as [| c s IH]; cbn [allChars]; [reflexivity |].
  intros H. apply andb_prop in H. destruct H as [Hc Hs].
  now rewrite (Hpq c Hc), IH.
Qed.

Lemma isDigit_notSlash (c : ascii) : isDigit c = true -> notSlash c = true.
Proof.
  unfold notSlash. destruct (Ascii.eqb_spec c "/") as [-> | _]; [| reflexivity].
  discriminate.
Qed.

Lemma split_no_separator (s : string) :
  allChars notSlash s = true -> split "/" s = [s].
Proof.
  induction s as [| c s IH]; cbn [allChars split]; [reflexivity |].
  intros H. apply andb_prop in H. destruct H as [Hc Hs].
  unfold notSlash in Hc. apply negb_true_iff in Hc. rewrite Hc, (IH Hs).
  reflexivity.
Qed.

Lemma split_at_separator (a b : string) :
  allChars notSlash a = true ->
  split "/" (a ++ String "/" b)%string = a :: split "/" b.
Proof.
  induction a as [| c a IH]; cbn [allChars split append]; [reflexivity |].
  intros H. apply andb_prop in H. destruct H as [Hc Ha].
  unfold notSlash in Hc. apply negb_true_iff in Hc. rewrite Hc, (IH Ha).
  reflexivity.
Qed.

Lemma digitsValue_leading_zeros (k : nat) (s : string) :
  digitsValue 0 (Js.replicate k "0" ++ s)%string = digitsValue 0 s.
Proof. induction k as [| k IH]; cbn [Js.replicate append]; [reflexivity | exact IH]. Qed.

Lemma parseDigits_padStart (n : Z) (width : nat) :
  0 <= n ->
  parseDigits (Js.padStart (Js.toString n) width "0") = Some n /\
  allChars notSlash (Js.padStart (Js.toString n) width "0") = true.
Proof.
  intros Hn. destruct (parseDigits_toString n Hn) as (Hp & Ha & Hne).
  unfold Js.padStart. split.
  - unfold parseDigits in *.
    destruct (Js.toString n) as [| c s] eqn:Es; [contradiction |].
    destruct (Js.replicate _ _ ++ String c s)%string eqn:Er.
    + destruct (width - String.length (String c s))%nat; discriminate Er.
    + rewrite <- Er, digitsValue_leading_zeros. exact Hp.
  - apply (allChars_impl isDigit); [exact isDigit_notSlash |].
    induction (width - String.length (Js.toString n))%nat as [| k IH];
      cbn [Js.replicate append allChars]; [exact Ha | exact IH].
Qed.

(** A well-formed date of the year 100 or later, printed by the date
    template, is read back by the slash reader as the same date. *)
Lemma parseSlashDate_formatDate :
  forall d : Js.Date,
    Js.validDate d ->
    100 <= Js.getFullYear d ->
    parseSlashDate (formatDate d) = Some d.
Proof.
  intros [y m dd] [Hm Hd] Hy. cbn [Js.getFullYear Js.getMonth Js.getDate] in *.
  pose proof (monthLength_bounds y m) as Hb.
  destruct (parseDigits_padStart (m + 1) 2 ltac:(lia)) as [Pm Sm].
  destruct (parseDigits_padStart dd 2 ltac:(lia)) as [Pd Sd].
  destruct (parseDigits_toString y ltac:(lia)) as (Py & Ay & _).
  unfold parseSlashDate, formatDate.
  cbn [Js.getFullYear Js.getMonth Js.getDate].
  change (?a ++ "/" ++ ?b ++ "/" ++ ?c)%string
    with (a ++ String "/" (b ++ String "/" c))%string.
  rewrite (split_at_separator _ _ Sm), (split_at_separator _ _ Sd),
    split_no_separator
    by (apply (allChars_impl isDigit); [exact isDigit_notSlash | exact Ay]).
  rewrite Pm, Pd, Py.
  replace ((1 <=? m + 1) && (m + 1 <=? 12) && (1 <=? dd) && (dd <=? 31))
    with true
    by (symmetry; rewrite !andb_true_iff, !Z.leb_le; lia).
  replace (y <=? 49) with false by (symmetry; apply Z.leb_gt; lia).
  replace (y <=? 99) with false by (symmetry; apply Z.leb_gt; lia).
  replace (m + 1 - 1) with m by lia.
  unfold Js.setDate. cbn [Js.getFullYear Js.getMonth].
  now rewrite normalizeDay_in_month.
Qed.

Lemma year_of_earlier_day (d d' : Js.Date) (n : Z) :
  Js.validDate d -> Js.validDate d' -> 0 <= n <= 365 ->
  Js.valueOf d = Js.valueOf d' - n ->
  Js.getFullYear d' - 1 <= Js.getFullYear d.
Proof.
  intros Hv Hv' Hn E.
  rewrite (valueOf_valid d Hv), (valueOf_valid d' Hv') in E.
  destruct d as [y m dd], d' as [y' m' dd'].
  destruct Hv as [Hm Hd], Hv' as [Hm' Hd'].
  cbn [Js.getFullYear Js.getMonth Js.getDate] in *.
  pose proof (dayOfYear_bounds y m dd Hm Hd) as B.
  pose proof (dayOfYear_bounds y' m' dd' Hm' Hd') as B'.
  destruct (Z_le_gt_dec (y' - 1) y) as [Hle | Hgt]; [exact Hle |].
  pose proof (DayFromYear_mono (y + 1 + 1) y' ltac:(lia)) as Hmono.
  rewrite !DayFromYear_succ in Hmono.
  pose proof (leapDay_bounds (y + 1)). lia.
Qed.

Lemma daysBackOrDefault_bounds (daysBack : option Z) :
  (forall k, daysBack = Some k -> 1 <= k <= 365) ->
  1 <= daysBackOrDefault daysBack <= 365.
Proof.
  intros H. unfold daysBackOrDefault. destruct daysBack as [k |]; [| lia].
  specialize (H k eq_refl). destruct (k =? 0); lia.
Qed.



(** ** The archival store client *)

Lemma string_length_app (a b : string) :
  String.length (a ++ b)%string = (String.length a + String.length b)%nat.
Proof. induction a as [| c a IH]; cbn; [reflexivity | now rewrite IH]. Qed.

Lemma string_app_inv_head (a x y : string) :
  (a ++ x)%string = (a ++ y)%string -> x = y.
Proof.
  induction a as [| c a IH]; cbn [append]; intros H; [exact H |].
  injection H as H. now apply IH.
Qed.

Lemma string_app_inv_tail (x y r : string) :
  (x ++ r)%string = (y ++ r)%string -> x = y.
Proof.
  revert y. induction x as [| c x IH]; intros [| c' y] H; cbn [append] in H.
  - reflexivity.
  - apply (f_equal String.length) in H. cbn [String.length] in H.
    rewrite string_length_app in H. lia.
  - apply (f_equal String.length) in H. cbn [String.length] in H.
    rewrite string_length_app in H. lia.
  - injection H as -> H. f_equal. now apply IH.
Qed.

Lemma toString_inj (a b : Z) : Js.toString a = Js.toString b -> a = b.
Proof.
  unfold Js.toString. intros H.
  assert (Hok : forall z, NilZero.int_of_string (NilZero.string_of_int (Z.to_int z))
                          = Some (Z.to_int z)).
  { intros z. apply NilZero.isi; destruct z as [| p | p]; cbn [Z.to_int];
      try discriminate; intros E; injection E as E;
      exact (DecimalPos.Unsigned.to_uint_nonnil p E). }
  apply DecimalZ.to_int_inj.
  pose proof (Hok a) as Ha. rewrite H, Hok in Ha. now injection Ha.
Qed.

Lemma substring_suffix (a b : string) :
  substring (String.length a) (String.length b) (a ++ b)%string = b.
Proof.
  induction a as [| c a IH]; cbn [String.length append substring]; [| exact IH].
  induction b as [| c b IHb]; cbn [String.length substring]; [reflexivity |].
  now rewrite IHb.
Qed.

Lemma endsWith_app (a suffix : string) :
  endsWith (a ++ suffix)%string suffix = true.
Proof.
  unfold endsWith. rewrite string_length_app.
  replace (String.length a + String.length suffix - String.length suffix)%nat
    with (String.length a) by lia.
  rewrite substring_suffix, String.eqb_refl, andb_true_r.
  apply Nat.leb_le. lia.
Qed.

Lemma toLowerCase_app (a b : string) :
  toLowerCase (a ++ b)%string = (toLowerCase a ++ toLowerCase b)%string.
Proof. induction a as [| c a IH]; cbn; [reflexivity | now rewrite IH]. Qed.

Lemma exportFileName_is_csv (county documentType date : string) :
  endsWith (toLowerCase (exportFileName county documentType date)) ".csv" = true.
Proof.
  unfold exportFileName.
  rewrite <- !string_app_assoc, toLowerCase_app.
  change (toLowerCase ".csv") with ".csv". apply endsWith_app.
Qed.

(** X9. Uploading an export reads the clock three times and sends one
    object, to the configured bucket, as [text/csv], under the key
    [landmark-scraper/<UTC day>/<Date.now()>-<file name>]; if the send
    resolves the locator [s3://<bucket>/<key>] is returned, and if it
    rejects an [Error] is thrown whose message is
    [Failed to upload to S3: ] followed by the message of the cause. *)
Theorem uploadFile_export :
  forall (w : World) (buffer : list Byte.byte)
         (county documentType date : string) (st : State),
    let fileName := exportFileName county documentType date in
    let key := ("landmark-scraper/" ++ isoDay (clock w (clockReads st)) ++ "/"
                ++ Js.toString (millis (clock w (S (clockReads st)))) ++ "-"
                ++ fileName)%string in
    let send := S3Send (S3_BUCKET_NAME w) key "text/csv" buffer in
    trace (snd (uploadFile w buffer fileName st)) = trace st ++ [send] /\
    clockReads (snd (uploadFile w buffer fileName st)) = (clockReads st + 3)%nat /\
    fst (uploadFile w buffer fileName st)
    = match respond w (List.length (trace st)) send with
      | Resolved _ => Normal ("s3://" ++ S3_BUCKET_NAME w ++ "/" ++ key)%string
      | Rejected e =>
          Throw (ErrorObject ("Failed to upload to S3: " ++ errorMessage e)%string)
      end.
Proof.
  intros w buffer county documentType date st fileName key send.
  assert (E : uploadFile w buffer fileName st
              = (match respond w (List.length (trace st)) send with
                 | Resolved _ =>
                     Normal ("s3://" ++ S3_BUCKET_NAME w ++ "/" ++ key)%string
                 | Rejected e =>
                     Throw (ErrorObject
                              ("Failed to upload to S3: " ++ errorMessage e)%string)
                 end,
                 mkState (trace st ++ [send]) (S (S (S (clockReads st))))
                   (heap_results st))).
  { subst send key fileName.
    unfold uploadFile, bind, readClock, tryCatch, call, ret, throw.
    cbv beta iota zeta. cbn [trace clockReads heap_results].
    rewrite exportFileName_is_csv.
    destruct (respond w _ _); reflexivity. }
  rewrite E. cbn [fst snd trace clockReads].
  repeat split. lia.
Qed.

(** X10. Two successful uploads of the same file name on the same UTC
    day get the same locator exactly when [Date.now()] returned the same
    value for both: distinct timestamps never overwrite each other. *)
Theorem uploadFile_locators :
  forall (w : World) (buffer buffer' : list Byte.byte) (fileName : string)
         (st1 st1' st2 st2' : State) (locator1 locator2 : string),
    uploadFile w buffer fileName st1 = (Normal locator1, st1') ->
    uploadFile w buffer' fileName st2 = (Normal locator2, st2') ->
    isoDay (clock w (clockReads st1)) = isoDay (clock w (clockReads st2)) ->
    (locator1 = locator2 <->
     millis (clock w (S (clockReads st1))) = millis (clock w (S (clockReads st2)))).
Proof.
  intros w buffer buffer' fileName st1 st1' st2 st2' locator1 locator2 E1 E2 Hday.
  assert (Hloc : forall b st st' locator,
            uploadFile w b fileName st = (Normal locator, st') ->
            locator
            = ("s3://" ++ S3_BUCKET_NAME w ++ "/" ++ "landmark-scraper/"
               ++ isoDay (clock w (clockReads st)) ++ "/"
               ++ Js.toString (millis (clock w (S (clockReads st)))) ++ "-"
               ++ fileName)%string).
  { intros b st st' locator E.
    unfold uploadFile, bind, readClock, tryCatch, call, ret, throw in E.
    cbv beta iota zeta in E. cbn [trace clockReads heap_results] in E.
    destruct (respond w _ _); [| discriminate E].
    now injection E as <- _. }
  rewrite (Hloc _ _ _ _ E1), (Hloc _ _ _ _ E2), Hday. split.
  - intros H.
    repeat (apply string_app_inv_head in H).
    apply string_app_inv_tail in H. now apply toString_inj.
  - now intros ->.
Qed.

Definition afterOneUpload : State := mkState [] 3 [].

Lemma uploadFile_locators_witness :
  "s3://records/landmark-scraper/2024-03-05/1709640000001-a.csv"
  = "s3://records/landmark-scraper/2024-03-05/1709640000004-a.csv" <->
  1709640000001 = 1709640000004.
Proof.
  pose (first := uploadFile siteWithRecords [] "a.csv" initialState).
  pose (second := uploadFile siteWithRecords [] "a.csv" afterOneUpload).
  assert (E1 : first
               = (Normal "s3://records/landmark-scraper/2024-03-05/1709640000001-a.csv",
                  snd first)) by (vm_compute; reflexivity).
  assert (E2 : second
               = (Normal "s3://records/landmark-scraper/2024-03-05/1709640000004-a.csv",
                  snd second)) by (vm_compute; reflexivity).
  exact (uploadFile_locators siteWithRecords [] [] "a.csv"
           initialState (snd first) afterOneUpload (snd second) _ _
           E1 E2 eq_refl).
Defined.

(** ** Separators in the export file name *)

Lemma allChars_app (p : ascii -> bool) (a b : string) :
  allChars p (a ++ b)%string = allChars p a && allChars p b.
Proof.
  induction a as [| c a IH]; cbn [append allChars]; [reflexivity |].
  now rewrite IH, andb_assoc.
Qed.

Lemma replaceWhiteSpaceRuns_keeps (p : ascii -> bool) (s : string) :
  p "-"%char = true ->
  (forall c, isWhiteSpace c = false -> In c (list_ascii_of_string s) -> p c = true) ->
  allChars p (replaceWhiteSpaceRuns s) = true.
Proof.
  intros Hhyphen. induction s as [| c rest IH]; intros Hp; [reflexivity |].
  assert (Hrest : allChars p (replaceWhiteSpaceRuns rest) = true).
  { apply IH. intros c' Hc' Hin. apply Hp; [exact Hc' | now right]. }
  cbn [replaceWhiteSpaceRuns]. destruct (isWhiteSpace c) eqn:Ec.
  - destruct rest as [| c' rest']; [cbn; now rewrite Hhyphen |].
    destruct (isWhiteSpace c'); [exact Hrest |].
    cbn [allChars]. now rewrite Hhyphen, Hrest.
  - cbn [allChars]. rewrite Hrest, (Hp c Ec); [reflexivity | now left].
Qed.

Lemma allChars_In (p : ascii -> bool) (s : string) (c : ascii) :
  allChars p s = true -> In c (list_ascii_of_string s) -> p c = true.
Proof.
  induction s as [| c' s IH]; cbn [allChars list_ascii_of_string]; [intros _ [] |].
  intros H [-> | Hin]; apply andb_prop in H; destruct H as [Hc Hs];
    [exact Hc | now apply IH].
Qed.

Lemma replaceSlashes_clean (s : string) :
  allChars notSlash (replaceSlashes s) = true.
Proof.
  induction s as [| c s IH]; cbn [replaceSlashes allChars]; [reflexivity |].
  rewrite IH, andb_true_r. unfold notSlash.
  destruct (Ascii.eqb c "/") eqn:E; [reflexivity | now rewrite E].
Qed.

Lemma replaceSlashes_keeps_notWhiteSpace (s : string) :
  allChars notWhiteSpace s = true ->
  allChars notWhiteSpace (replaceSlashes s) = true.
Proof.
  induction s as [| c s IH]; cbn [replaceSlashes allChars]; [reflexivity |].
  intros H. apply andb_prop in H. destruct H as [Hc Hs]. rewrite (IH Hs), andb_true_r.
  destruct (Ascii.eqb c "/"); [reflexivity | exact Hc].
Qed.

Lemma replaceSlashes_length (s : string) :
  String.length (replaceSlashes s) = String.length s.
Proof. induction s as [| c s IH]; cbn; [reflexivity | now rewrite IH]. Qed.

(** X11. Neither the date nor white space in the document type can put
    a path separator or a blank into the export file name: the name
    contains no slash when the county and the document type contain
    none, whatever the date, and no white space when the county and the
    date contain none, whatever the document type. *)
Theorem exportFileName_separators :
  forall county documentType date : string,
    (allChars notSlash county = true ->
     allChars notSlash documentType = true ->
     allChars notSlash (exportFileName county documentType date) = true) /\
    (allChars notWhiteSpace county = true ->
     allChars notWhiteSpace date = true ->
     allChars notWhiteSpace (exportFileName county documentType date) = true).
Proof.
  intros county documentType date. unfold exportFileName. split.
  - intros Hc Hd. rewrite !allChars_app, Hc, replaceSlashes_clean.
    rewrite replaceWhiteSpaceRuns_keeps;
      [reflexivity | reflexivity | intros c _ Hin; now apply (allChars_In _ documentType)].
  - intros Hc Hd. rewrite !allChars_app, Hc, (replaceSlashes_keeps_notWhiteSpace _ Hd).
    rewrite replaceWhiteSpaceRuns_keeps;
      [reflexivity | reflexivity |].
    intros c Hws _. unfold notWhiteSpace. now rewrite Hws.
Qed.

Lemma exportFileName_separators_witness :
  allChars notSlash (exportFileName "king" "QUITCLAIM  DEED" "03/05/2024") = true /\
  allChars notWhiteSpace (exportFileName "king" "QUITCLAIM  DEED" "03-05-2024") = true.
Proof.
  split.
  - apply (proj1 (exportFileName_separators "king" "QUITCLAIM  DEED" "03/05/2024"));
      reflexivity.
  - apply (proj2 (exportFileName_separators "king" "QUITCLAIM  DEED" "03-05-2024"));
      reflexivity.
Defined.

(** ** The result contract of a unit *)

(** An entry is a no-records marker, or a locator that ends in the
    export file name of its own unit, or an error message; never two of
    them. *)
Definition entryDetail (config : ScrapeConfig) (r : ResultEntry) : Prop :=
  (s3Path r = Some "no-records" /\ error r = None)
  \/ (exists folder,
         s3Path r
         = Some ("s3://" ++ folder
                 ++ exportFileName (county config) (documentType r) (date r))%string
         /\ error r = None)
  \/ (s3Path r = None /\ exists message, error r = Some message).

(** [m] keeps [P] true of every collected entry. *)
Definition maintains {A : Type} (P : ResultEntry -> Prop) (m : M A) : Prop :=
  forall st, Forall P (heap_results st) -> Forall P (heap_results (snd (m st))).

Lemma maintains_keeps {A} (P : ResultEntry -> Prop) (m : M A) :
  keeps m -> maintains P m.
Proof. intros Hk st H. now rewrite Hk. Qed.

Lemma maintains_bind {A B} (P : ResultEntry -> Prop) (m : M A) (k : A -> M B) :
  maintains P m -> (forall a, maintains P (k a)) -> maintains P (bind m k).
Proof.
  intros Hm Hk st H. unfold bind. specialize (Hm st H).
  destruct (m st) as [[a | e] st1]; cbn [snd] in *; [now apply Hk | exact Hm].
Qed.

Lemma maintains_forOf {A} (P : ResultEntry -> Prop) (xs : list A)
    (body : A -> M unit) :
  (forall x, maintains P (body x)) -> maintains P (forOf xs body).
Proof.
  intros Hbody. induction xs as [| x xs IH]; cbn [forOf].
  - apply maintains_keeps, preserves_ret.
  - apply maintains_bind; [apply Hbody | intros _; exact IH].
Qed.

Section EntryFacts.

Variable Date_parse : string -> option Js.Date.
Variable w : World.
Variable config : ScrapeConfig.

Lemma scrapeSingleDay_outcome (date documentType : string) (st : State) :
  exists o st',
    scrapeSingleDay w config date documentType st = (Normal o, st') /\
    heap_results st' = heap_results st /\
    (archivedOrEmpty config date documentType o
     \/ exists e, o = mkOutcome false None (Some (errorMessage e))).
Proof.
  pose proof (keeps_scrapeSingleDay w config date documentType st) as Hk.
  unfold scrapeSingleDay, tryCatch in *.
  destruct (scrapeSingleDay_try w config date documentType st)
    as [[o | e] st1] eqn:E; cbn [snd] in Hk.
  - exists o, st1. repeat split; [exact Hk |]. left.
    exact (post_scrapeSingleDay_try w config date documentType st o st1 E).
  - eexists _, st1. repeat split; [exact Hk |]. right. now exists e.
Qed.

Lemma maintains_unit (unitDate unitType : string) :
  maintains (entryDetail config)
    (result <- scrapeSingleDay w config unitDate unitType ;;
     pushResult (mkEntry unitDate unitType
                   (outcome_s3Path result) (outcome_error result)) ;;
     call w (PageWaitForTimeout 2000) ;;
     ret tt).
Proof.
  intros st H. rewrite bind_run.
  destruct (scrapeSingleDay_outcome unitDate unitType st)
    as (o & st1 & -> & Hh & Ho).
  rewrite bind_run. cbn [pushResult]. rewrite bind_run. unfold call.
  cbn [trace clockReads heap_results].
  assert (Hentry : entryDetail config
                     (mkEntry unitDate unitType
                        (outcome_s3Path o) (outcome_error o))).
  { unfold entryDetail. cbn [s3Path error date documentType].
    destruct Ho as [[-> | [folder ->]] | [e ->]]; cbn [outcome_s3Path outcome_error noRecords].
    - left. now split.
    - right. left. now exists folder.
    - right. right. split; [reflexivity | now eexists]. }
  destruct (respond w _ _); cbn [snd ret heap_results]; rewrite Hh;
    apply Forall_app; (split; [exact H | now constructor]).
Qed.

(** X12. Every entry [execute] returns, on the normal and on the error
    path, is exactly one of: the no-records marker without error, an
    [s3://] locator ending in the export file name of the entry's own
    date and document type without error, or an error message without
    locator. *)
Theorem execute_entries_contract (st : State) :
  exists (res : ExecutionResult) (st' : State),
    execute Date_parse w config st = (Normal res, st') /\
    Forall (entryDetail config) (results res).
Proof.
  unfold execute. rewrite bind_run. cbn [setResults].
  set (st0 := mkState (trace st) (clockReads st) []).
  assert (H0 : Forall (entryDetail config) (heap_results st0)) by constructor.
  unfold tryCatch, execute_try.
  assert (Hcatch : forall e st1, Forall (entryDetail config) (heap_results st1) ->
            exists res st',
              execute_catch w e st1 = (Normal res, st') /\
              Forall (entryDetail config) (results res)).
  { intros e st1 H1. destruct (execute_catch_run w e st1) as (st' & Hc & _).
    eexists _, st'. split; [exact Hc | exact H1]. }
  rewrite bind_run.
  pose proof (keeps_call w StagehandInit st0) as K1.
  destruct (call w StagehandInit st0) as [[v1 | e1] st1]; cbn [snd] in K1;
    [| apply Hcatch; now rewrite K1].
  rewrite bind_run.
  pose proof (keeps_call w (PageGoto landmarkUrl 60000) st1) as K2.
  destruct (call w (PageGoto _ _) st1) as [[v2 | e2] st2]; cbn [snd] in K2;
    [| apply Hcatch; now rewrite K2, K1].
  rewrite bind_run.
  pose proof (keeps_call w (PageWaitForTimeout 3000) st2) as K3.
  destruct (call w (PageWaitForTimeout 3000) st2) as [[v3 | e3] st3]; cbn [snd] in K3;
    [| apply Hcatch; now rewrite K3, K2, K1].
  rewrite bind_run.
  assert (H3 : Forall (entryDetail config) (heap_results st3))
    by (now rewrite K3, K2, K1).
  pose proof (maintains_forOf (entryDetail config)
                (generateDateRange Date_parse (startDate config) (endDate config))
                (fun date =>
                   forOf (documentTypes config) (fun documentType =>
                     result <- scrapeSingleDay w config date documentType ;;
                     pushResult (mkEntry date documentType
                                   (outcome_s3Path result) (outcome_error result)) ;;
                     call w (PageWaitForTimeout 2000) ;;
                     ret tt))
                (fun date => maintains_forOf _ _ _ (maintains_unit date))
                st3 H3) as H4.
  destruct (forOf _ _ st3) as [[u | e4] st4]; cbn [snd] in H4;
    [| apply Hcatch; exact H4].
  rewrite bind_run. cbn [getResults]. rewrite bind_run.
  pose proof (keeps_call w StagehandClose st4) as K5.
  destruct (call w StagehandClose st4) as [[v5 | e5] st5]; cbn [snd] in K5.
  - eexists _, st5. split; [reflexivity | exact H4].
  - apply Hcatch. now rewrite K5.
Qed.

End EntryFacts.

(** ** Counting calls *)

(** Number of calls made so far that satisfy [p]. *)
Definition callCount (p : Call -> bool) (st : State) : nat :=
  List.length (filter p (trace st)).

Lemma callCount_call (p : Call -> bool) (w : World) (c : Call) (st : State) :
  callCount p (snd (call w c st))
  = (callCount p st + (if p c then 1 else 0))%nat.
Proof.
  unfold call, callCount.
  destruct (respond w _ c); cbn [snd trace];
    rewrite filter_app, length_app; cbn [filter];
    destruct (p c); reflexivity.
Qed.

Lemma uncounted_call (p : Call -> bool) (w : World) (c : Call) :
  p c = false -> preserves (callCount p) (call w c).
Proof. intros Hc st. rewrite callCount_call, Hc. lia. Qed.

Lemma uncounted_readClock (p : Call -> bool) (w : World) :
  preserves (callCount p) (readClock w).
Proof. intros st. reflexivity. Qed.

Lemma uncounted_pushResult (p : Call -> bool) (entry : ResultEntry) :
  preserves (callCount p) (pushResult entry).
Proof. intros st. reflexivity. Qed.

Definition isUpload (c : Call) : bool :=
  match c with S3Send _ _ _ _ => true | _ => false end.

Definition isSessionCall (c : Call) : bool :=
  match c with StagehandInit | StagehandClose => true | _ => false end.

(** Stepping through a computation none of whose calls is counted. *)
Ltac uncounted_step Hp :=
  first
    [ apply preserves_ret
    | apply preserves_throw
    | apply uncounted_call; first [reflexivity | apply Hp; reflexivity]
    | apply uncounted_readClock
    | apply uncounted_pushResult
    | apply preserves_bind; [| intros ?]
    | apply preserves_tryCatch; [| intros ?]
    | match goal with
      | |- preserves _ (if ?b then _ else _) => destruct b
      end ].

Section CallFacts.

Variable Date_parse : string -> option Js.Date.
Variable w : World.
Variable config : ScrapeConfig.

(** A unit never opens or closes the session. *)
Lemma scrapeSingleDay_no_session_call (p : Call -> bool) date documentType :
  (forall c, isSessionCall c = false -> p c = false) ->
  preserves (callCount p) (scrapeSingleDay w config date documentType).
Proof.
  intros Hp.
  unfold scrapeSingleDay, scrapeSingleDay_try, uploadFile, fillDateField.
  repeat uncounted_step Hp.
Qed.

Lemma uploadFile_counts (buffer : list Byte.byte) (fileName : string) (st : State) :
  callCount isUpload (snd (uploadFile w buffer fileName st))
  = (callCount isUpload st + 1)%nat.
Proof.
  unfold uploadFile, bind, readClock, tryCatch, call, ret, throw, callCount.
  cbv beta iota zeta. cbn [trace clockReads heap_results].
  destruct (respond w _ _); cbn [snd trace];
    rewrite filter_app, length_app; reflexivity.
Qed.

Definition isArchived (o : ScrapeOutcome) : bool :=
  match outcome_s3Path o with
  | Some locator => negb (String.eqb locator "no-records")
  | None => false
  end.

(** What a computation that ends a unit does to the number of uploads:
    one more when it returns an archived outcome, none when it returns
    anything else, at most one when it throws. *)
Definition uploadsOnce (m : M ScrapeOutcome) : Prop :=
  forall st,
    match m st with
    | (Normal o, st') =>
        callCount isUpload st'
        = (callCount isUpload st + (if isArchived o then 1 else 0))%nat
    | (Throw _, st') =>
        (callCount isUpload st <= callCount isUpload st'
         <= callCount isUpload st + 1)%nat
    end.

Lemma uploadsOnce_bind {A} (m : M A) (k : A -> M ScrapeOutcome) :
  preserves (callCount isUpload) m -> (forall a, uploadsOnce (k a)) ->
  uploadsOnce (bind m k).
Proof.
  intros Hm Hk st. unfold bind. specialize (Hm st).
  destruct (m st) as [[a | e] st1]; cbn [snd] in Hm.
  - specialize (Hk a st1). destruct (k a st1) as [[o | e] st2]; lia.
  - lia.
Qed.

Lemma uploadsOnce_noRecords : uploadsOnce (ret noRecords).
Proof. intros st. cbn. lia. Qed.

Lemma uploadsOnce_archive (buffer : list Byte.byte) (fileName : string) :
  uploadsOnce
    (s3Path <- uploadFile w buffer fileName ;;
     call w PageGoBack ;;
     call w (PageWaitForTimeout 2000) ;;
     ret (mkOutcome true (Some s3Path) None)).
Proof.
  intros st. rewrite bind_run.
  pose proof (uploadFile_counts buffer fileName st) as Hu.
  destruct (uploadFile w buffer fileName st) as [[s3Path | e] st1] eqn:E;
    cbn [snd] in Hu; [| lia].
  destruct (post_uploadFile w buffer fileName st s3Path st1 E) as [folder ->].
  rewrite bind_run.
  pose proof (uncounted_call isUpload w PageGoBack eq_refl st1) as H1.
  destruct (call w PageGoBack st1) as [[v1 | e1] st2]; cbn [snd] in H1; [| lia].
  rewrite bind_run.
  pose proof (uncounted_call isUpload w (PageWaitForTimeout 2000) eq_refl st2) as H2.
  destruct (call w (PageWaitForTimeout 2000) st2) as [[v2 | e2] st3];
    cbn [snd] in H2; [| lia].
  cbn [ret isArchived outcome_s3Path]. cbn. lia.
Qed.

Lemma uploadsOnce_try date documentType :
  uploadsOnce (scrapeSingleDay_try w config date documentType).
Proof.
  unfold scrapeSingleDay_try, fillDateField.
  repeat lazymatch goal with
         | |- uploadsOnce (bind (uploadFile _ _ _) _) => fail
         | |- uploadsOnce (bind _ _) =>
             apply uploadsOnce_bind;
             [repeat uncounted_step (fun c (H : isSessionCall c = false) => H)
             | intros ?]
         | |- uploadsOnce (if ?b then _ else _) => destruct b
         | |- uploadsOnce (ret noRecords) => apply uploadsOnce_noRecords
         end.
  apply uploadsOnce_archive.
Qed.

(** X13. A unit reported as archived has sent exactly one object to the
    store, a unit reported as no-records has sent none, and a failed
    unit has sent at most one (the send itself, or the navigation after
    it, may be what failed). *)
Theorem scrapeSingleDay_uploads (date documentType : string) (st : State) :
  exists (o : ScrapeOutcome) (st' : State),
    scrapeSingleDay w config date documentType st = (Normal o, st') /\
    (callCount isUpload st <= callCount isUpload st'
     <= callCount isUpload st + 1)%nat /\
    (outcome_success o = true ->
     callCount isUpload st'
     = (callCount isUpload st + (if isArchived o then 1 else 0))%nat) /\
    (isArchived o = true -> outcome_success o = true) /\
    (outcome_s3Path o = Some "no-records" ->
     callCount isUpload st' = callCount isUpload st).
Proof.
  pose proof (uploadsOnce_try date documentType st) as Hu.
  unfold scrapeSingleDay, tryCatch.
  destruct (scrapeSingleDay_try w config date documentType st)
    as [[o | e] st1] eqn:E.
  - exists o, st1. split; [reflexivity |].
    destruct (post_scrapeSingleDay_try w config date documentType st o st1 E)
      as [-> | [folder ->]].
    + change (isArchived noRecords) with false in *. cbv iota in Hu.
      repeat split; intros; cbv iota; try lia; discriminate.
    + match type of Hu with
      | context [isArchived ?o] =>
          assert (Ha : isArchived o = true) by reflexivity; rewrite Ha in *
      end.
      cbv iota in Hu.
      repeat split; intros; cbv iota; try lia; try reflexivity.
      match goal with H : _ = Some "no-records" |- _ => cbn in H; discriminate H end.
  - eexists _, st1. split; [reflexivity |].
    cbn [isArchived outcome_s3Path outcome_success].
    repeat split; intros; try lia; discriminate.
Qed.

End CallFacts.

(** ** The order of calls *)

(** [m] only appends to the trace. *)
Definition extends {A : Type} (m : M A) : Prop :=
  forall st, exists delta, trace (snd (m st)) = trace st ++ delta.

Lemma extends_same {A} (m : M A) : preserves trace m -> extends m.
Proof. intros H st. exists []. now rewrite H, app_nil_r. Qed.

Lemma call_trace (w : World) (c : Call) (st : State) :
  trace (snd (call w c st)) = trace st ++ [c].
Proof. unfold call. destruct (respond w _ c); reflexivity. Qed.

Lemma extends_call (w : World) (c : Call) : extends (call w c).
Proof. intros st. exists [c]. apply call_trace. Qed.

Lemma extends_bind {A B} (m : M A) (k : A -> M B) :
  extends m -> (forall a, extends (k a)) -> extends (bind m k).
Proof.
  intros Hm Hk st. unfold bind. destruct (Hm st) as [d1 H1].
  destruct (m st) as [[a | e] st1]; cbn [snd] in *.
  - destruct (Hk a st1) as [d2 H2]. exists (d1 ++ d2).
    now rewrite H2, H1, app_assoc.
  - now exists d1.
Qed.

Lemma extends_tryCatch {A} (m : M A) (h : Exn -> M A) :
  extends m -> (forall e, extends (h e)) -> extends (tryCatch m h).
Proof.
  intros Hm Hh st. unfold tryCatch. destruct (Hm st) as [d1 H1].
  destruct (m st) as [[a | e] st1]; cbn [snd] in *.
  - now exists d1.
  - destruct (Hh e st1) as [d2 H2]. exists (d1 ++ d2).
    now rewrite H2, H1, app_assoc.
Qed.

Lemma extends_forOf {A} (xs : list A) (body : A -> M unit) :
  (forall x, extends (body x)) -> extends (forOf xs body).
Proof.
  intros Hbody. induction xs as [| x xs IH]; cbn [forOf].
  - apply extends_same, preserves_ret.
  - apply extends_bind; [apply Hbody | intros _; exact IH].
Qed.

Ltac extends_step :=
  first
    [ apply extends_call
    | apply extends_same;
      first [apply preserves_ret | apply preserves_throw]
    | apply extends_same; intros ?; reflexivity
    | apply extends_bind; [| intros ?]
    | apply extends_tryCatch; [| intros ?]
    | apply extends_forOf; intros ?
    | match goal with
      | |- extends (if ?b then _ else _) => destruct b
      end ].

Lemma tryCatch_bind {A B} (m : M A) (k : A -> M B) (h : Exn -> M B) (st : State) :
  tryCatch (bind m k) h st
  = match m st with
    | (Normal a, st1) => tryCatch (k a) h st1
    | (Throw e, st1) => h e st1
    end.
Proof. unfold tryCatch, bind. now destruct (m st) as [[a | e] st1]. Qed.

(** The state [m] returns in satisfies [Q]. *)
Definition finally {A : Type} (Q : State -> Prop) (m : M A) : Prop :=
  forall st a st', m st = (Normal a, st') -> Q st'.

Lemma finally_bind {A B} (Q : State -> Prop) (m : M A) (k : A -> M B) :
  (forall a, finally Q (k a)) -> finally Q (bind m k).
Proof.
  intros Hk st b st' E. unfold bind in E.
  destruct (m st) as [[a | e] st1]; [| discriminate].
  exact (Hk a st1 b st' E).
Qed.

Definition lastCallIs (c : Call) (st : State) : Prop :=
  exists front, trace st = front ++ [c].

Lemma finally_call_ret {A} (w : World) (c : Call) (a : A) :
  finally (lastCallIs c) (call w c ;; ret a).
Proof.
  intros st a' st' E. rewrite bind_run in E. unfold call in E.
  destruct (respond w _ c); [| discriminate].
  injection E as _ <-. now exists (trace st).
Qed.

Lemma isInit_not_session (c : Call) : isSessionCall c = false -> isInit c = false.
Proof. now destruct c. Qed.

Section OrderFacts.

Variable Date_parse : string -> option Js.Date.
Variable w : World.
Variable config : ScrapeConfig.

Lemma extends_scrapeSingleDay date documentType :
  extends (scrapeSingleDay w config date documentType).
Proof.
  unfold scrapeSingleDay, scrapeSingleDay_try, uploadFile, fillDateField.
  repeat extends_step.
Qed.

Lemma lastCallIs_catch (e : Exn) (st : State) :
  lastCallIs StagehandClose (snd (execute_catch w e st)).
Proof.
  destruct (execute_catch_run w e st) as (st' & -> & Ht). now exists (trace st).
Qed.

(** X14. Every run of [execute] makes [init] its first call, attempts
    it exactly once, and makes a [close] its last call. *)
Theorem execute_session_lifecycle (st : State) :
  (exists rest,
      trace (snd (execute Date_parse w config st))
      = trace st ++ StagehandInit :: rest) /\
  lastCallIs StagehandClose (snd (execute Date_parse w config st)) /\
  callCount isInit (snd (execute Date_parse w config st))
  = (callCount isInit st + 1)%nat.
Proof.
  unfold execute. rewrite bind_run. cbn [setResults].
  set (st0 := mkState (trace st) (clockReads st) []).
  unfold execute_try. rewrite tryCatch_bind.
  pose proof (call_trace w StagehandInit st0) as T1.
  pose proof (callCount_call isInit w StagehandInit st0) as C1.
  cbn [isInit] in C1.
  change (trace st0) with (trace st) in T1.
  change (callCount isInit st0) with (callCount isInit st) in C1.
  destruct (call w StagehandInit st0) as [[v1 | e1] st1]; cbn [snd] in T1, C1.
  - match goal with
    | |- context [tryCatch ?m ?h st1] =>
        assert (Hext : extends (tryCatch m h))
          by (unfold execute_catch, getResults, pushResult;
              repeat first [apply extends_scrapeSingleDay | extends_step]);
        assert (Hcnt : preserves (callCount isInit) (tryCatch m h))
          by (unfold execute_catch, getResults;
              repeat first
                [ apply scrapeSingleDay_no_session_call; exact isInit_not_session
                | apply preserves_forOf; intros ?
                | progress (intros ?; reflexivity)
                | uncounted_step isInit_not_session ]);
        assert (Hlast : forall s, lastCallIs StagehandClose (snd (tryCatch m h s)))
    end.
    { intros s. unfold tryCatch.
      match goal with
      | |- context [?m s] =>
          lazymatch m with
          | bind _ _ =>
              assert (Hfin : finally (lastCallIs StagehandClose) m)
                by (repeat lazymatch goal with
                           | |- finally _ (bind (call _ StagehandClose) _) =>
                               apply finally_call_ret
                           | |- finally _ (bind _ _) =>
                               apply finally_bind; intros ?
                           end);
              destruct (m s) as [[a | e] s'] eqn:Em;
              [exact (Hfin s a s' Em) | apply lastCallIs_catch]
          end
      end. }
    destruct (Hext st1) as [delta Hd].
    repeat split.
    + exists delta. now rewrite Hd, T1, <- app_assoc.
    + apply Hlast.
    + rewrite Hcnt. exact C1.
  - destruct (execute_catch_run w e1 st1) as (st' & Hrun & Ht).
    rewrite Hrun. cbn [snd]. repeat split.
    + exists [StagehandClose]. now rewrite Ht, T1, <- app_assoc.
    + now exists (trace st1).
    + unfold callCount in *. rewrite Ht, filter_app, length_app. cbn. lia.
Qed.

End OrderFacts.

(** ** The search a unit runs *)

Definition documentSearchLink : Locator := ByRole "link" "Document Search".
Definition noRecordsText : Locator := BySelector "text=/no records found/i".

(** Clearing and filling a text field ([fillDateField]). *)
Definition fillScript (selector value : string) : list Call :=
  let field := ByRole "textbox" selector in
  [Click field; Press field "Control+a"; Press field "Delete";
   Fill field value; PageWaitForTimeout 500].

(** The form interactions of one search, from the document type to the
    wait after the submit. *)
Definition searchScript (date documentType : string) : list Call :=
  let docTypeField := ByRole "textbox" "Document Type *" in
  [Click docTypeField; Press docTypeField "Control+a";
   Fill docTypeField documentType; PageWaitForTimeout 1000]
  ++ fillScript "Begin Date" date
  ++ fillScript "End Date" date
  ++ [Click (ByRole "link" " Submit"); PageWaitForTimeout 5000].

Lemma call_run (w : World) (c : Call) (st : State) :
  call w c st
  = match respond w (List.length (trace st)) c with
    | Resolved v =>
        (Normal v, mkState (trace st ++ [c]) (clockReads st) (heap_results st))
    | Rejected e =>
        (Throw e, mkState (trace st ++ [c]) (clockReads st) (heap_results st))
    end.
Proof. unfold call. now destruct (respond w _ c). Qed.

Lemma ret_run {A} (a : A) (st : State) : ret a st = (Normal a, st).
Proof. reflexivity. Qed.

(** Running the next call of [E], which must resolve for [E] to return. *)
Ltac run_call E :=
  first
    [ rewrite call_run in E;
      cbn [trace clockReads heap_results] in E;
      match type of E with
      | context [respond ?w ?n ?c] =>
          destruct (respond w n c); [| discriminate E]
      end;
      cbv beta iota in E
    | rewrite ret_run in E; cbv beta iota in E
    | rewrite bind_run in E ].

(** X15. A unit that succeeds, archived or without records, has run the
    whole search for its own values: after looking for the Document
    Search link (and following it when visible) it overwrote the
    document type with the unit's document type, filled Begin Date and
    End Date both with the unit's date, submitted, waited, and only then
    looked for the no-records text. *)
Theorem scrapeSingleDay_search_script :
  forall (w : World) (config : ScrapeConfig) (date documentType : string)
         (st st' : State) (o : ScrapeOutcome),
    scrapeSingleDay w config date documentType st = (Normal o, st') ->
    outcome_success o = true ->
    exists before after,
      trace st'
      = trace st ++ before ++ searchScript date documentType
        ++ IsVisible noRecordsText 3000 :: after /\
      (before = [IsVisible documentSearchLink 5000]
       \/ before = [IsVisible documentSearchLink 5000; Click documentSearchLink;
                    PageWaitForTimeout 2000]).
Proof.
  intros w config date documentType st st' o E Hok.
  unfold scrapeSingleDay, tryCatch in E.
  destruct (scrapeSingleDay_try w config date documentType st)
    as [[o1 | e] st1] eqn:Et.
  2: { injection E as <- _. discriminate Hok. }
  injection E as -> ->. clear Hok.
  unfold scrapeSingleDay_try, fillDateField in Et.
  rewrite bind_run, call_run in Et.
  destruct (respond w _ _) as [visible |]; [| discriminate Et].
  cbn [trace clockReads heap_results] in Et.
  destruct (toBoolean visible); repeat run_call Et.
  all: unfold tryCatch in Et; rewrite call_run in Et;
    cbn [trace clockReads heap_results] in Et.
  all: destruct (respond w _ _); cbv beta iota in Et; rewrite ?ret_run in Et;
    cbv beta iota in Et.
  all: match type of Et with
       | ?m ?s = _ =>
           assert (Hext : extends m)
             by (unfold uploadFile;
                 repeat first [apply extends_same; apply preserves_ret
                              | extends_step]);
           destruct (Hext s) as [delta Hd]; rewrite Et in Hd; cbn [snd trace] in Hd
       end.
  all: first
         [ exists [IsVisible documentSearchLink 5000], delta; split;
           [ rewrite Hd; unfold searchScript, fillScript;
             repeat rewrite <- app_assoc; reflexivity
           | left; reflexivity ]
         | exists [IsVisible documentSearchLink 5000; Click documentSearchLink;
                   PageWaitForTimeout 2000], delta; split;
           [ rewrite Hd; unfold searchScript, fillScript;
             repeat rewrite <- app_assoc; reflexivity
           | right; reflexivity ] ].
Qed.

Lemma scrapeSingleDay_search_script_witness :
  exists before after,
    trace (snd (scrapeSingleDay siteWithRecords oneDayOneType
                  "03/05/2024" "QUITCLAIM DEED" initialState))
    = trace initialState ++ before
      ++ searchScript "03/05/2024" "QUITCLAIM DEED"
      ++ IsVisible noRecordsText 3000 :: after /\
    (before = [IsVisible documentSearchLink 5000]
     \/ before = [IsVisible documentSearchLink 5000; Click documentSearchLink;
                  PageWaitForTimeout 2000]).
Proof.
  pose (run := scrapeSingleDay siteWithRecords oneDayOneType
                 "03/05/2024" "QUITCLAIM DEED" initialState).
  pose (o := match fst run with Normal o => o | Throw _ => noRecords end).
  assert (E : run = (Normal o, snd run)) by (vm_compute; reflexivity).
  assert (Hok : outcome_success o = true) by (vm_compute; reflexivity).
  exact (scrapeSingleDay_search_script siteWithRecords oneDayOneType
           "03/05/2024" "QUITCLAIM DEED" initialState (snd run) o E Hok).
Defined.

(** ** Printed dates are distinct *)

Lemma twoDigits_shape (s : string) :
  twoDigits s = true -> exists a b, s = String a (String b EmptyString).
Proof.
  destruct s as [| a [| b [| c s]]]; cbn; try discriminate.
  intros _. now exists a, b.
Qed.

Lemma padStart_inj (n n' : Z) :
  0 <= n -> 0 <= n' ->
  Js.padStart (Js.toString n) 2 "0" = Js.padStart (Js.toString n') 2 "0" ->
  n = n'.
Proof.
  intros Hn Hn' E. apply (f_equal parseDigits) in E.
  rewrite (proj1 (parseDigits_padStart n 2 Hn)),
    (proj1 (parseDigits_padStart n' 2 Hn')) in E.
  now injection E.
Qed.

Lemma formatDate_inj (d d' : Js.Date) :
  Js.validDate d -> Js.validDate d' -> formatDate d = formatDate d' -> d = d'.
Proof.
  intros Hv Hv' E.
  destruct (formatDate_shape d Hv) as (mm & dd & yyyy & Ef & Hmm & Hdd & Hy & _).
  destruct (formatDate_shape d' Hv') as (mm' & dd' & yyyy' & Ef' & Hmm' & Hdd' & Hy' & _).
  assert (Em : Js.padStart (Js.toString (Js.getMonth d + 1)) 2 "0"
               = Js.padStart (Js.toString (Js.getMonth d' + 1)) 2 "0"
             /\ Js.padStart (Js.toString (Js.getDate d)) 2 "0"
                = Js.padStart (Js.toString (Js.getDate d')) 2 "0"
             /\ Js.toString (Js.getFullYear d) = Js.toString (Js.getFullYear d')).
  { destruct Hv as [Hm Hd], Hv' as [Hm' Hd'].
    pose proof (monthLength_bounds (Js.getFullYear d) (Js.getMonth d)).
    pose proof (monthLength_bounds (Js.getFullYear d') (Js.getMonth d')).
    unfold formatDate in E. cbv zeta in E.
    destruct (twoDigits_shape _ (padStart_two_digits (Js.getMonth d + 1) ltac:(lia)))
      as (a1 & b1 & E1).
    destruct (twoDigits_shape _ (padStart_two_digits (Js.getMonth d' + 1) ltac:(lia)))
      as (a2 & b2 & E2).
    destruct (twoDigits_shape _ (padStart_two_digits (Js.getDate d) ltac:(lia)))
      as (c1 & e1 & E3).
    destruct (twoDigits_shape _ (padStart_two_digits (Js.getDate d') ltac:(lia)))
      as (c2 & e2 & E4).
    rewrite E1, E2, E3, E4 in *. cbn [append] in E.
    injection E as -> -> -> -> E. now repeat split. }
  destruct Em as (Em & Ed & Ey).
  destruct Hv as [Hm Hd], Hv' as [Hm' Hd'].
  apply padStart_inj in Em; [| lia | lia].
  apply padStart_inj in Ed; [| lia | lia].
  apply toString_inj in Ey.
  destruct d, d'. cbn [Js.getFullYear Js.getMonth Js.getDate] in *.
  f_equal; lia.
Qed.



(** ** Failing before the first unit *)

(** X17. If the session opens but the initial navigation fails, no unit
    is attempted: the calls made are [init], the failed [goto] and one
    [close], and the result is [success: false] with no entries and the
    summary [{total: 0, successful: 0, failed: 1}]. *)
Theorem execute_navigation_fails :
  forall (Date_parse : string -> option Js.Date) (w : World)
         (config : ScrapeConfig) (st : State) (opened : Val) (e : Exn),
    respond w (List.length (trace st)) StagehandInit = Resolved opened ->
    respond w (List.length (trace st) + 1) (PageGoto landmarkUrl 60000)
    = Rejected e ->
    exists st',
      execute Date_parse w config st
      = (Normal (mkResult false [] (mkSummary 0 0 1)), st') /\
      trace st'
      = trace st ++ [StagehandInit; PageGoto landmarkUrl 60000; StagehandClose].
Proof.
  intros Date_parse w config st opened e Hinit Hgoto.
  unfold execute. rewrite bind_run. cbn [setResults].
  unfold tryCatch, execute_try.
  rewrite bind_run, call_run. cbn [trace clockReads heap_results]. rewrite Hinit.
  rewrite bind_run, call_run. cbn [trace clockReads heap_results].
  rewrite length_app. cbn [List.length]. rewrite Hgoto.
  destruct (execute_catch_run w e
              (mkState ((trace st ++ [StagehandInit])
                        ++ [PageGoto landmarkUrl 60000]) (clockReads st) []))
    as (st' & -> & Ht).
  exists st'. split; [reflexivity |].
  rewrite Ht. cbn [trace]. now rewrite <- !app_assoc.
Qed.

Lemma execute_navigation_fails_witness :
  exists st',
    execute parseSlashDate navigationFails threeDaysTwoTypes initialState
    = (Normal (mkResult false [] (mkSummary 0 0 1)), st') /\
    trace st'
    = trace initialState
      ++ [StagehandInit; PageGoto landmarkUrl 60000; StagehandClose].
Proof.
  apply (execute_navigation_fails parseSlashDate navigationFails
           threeDaysTwoTypes initialState VUndefined
           (ErrorObject "Timeout 60000ms exceeded")); reflexivity.
Defined.
